(** * Method-body and declaration extraction of parse_java_code.py

    A shallow embedding of [JavaMethodExtractor._get_method_body],
    [JavaMethodExtractor._get_method_declaration],
    [remove_illegal_characters] and the two writers, followed by the
    properties of the boundary extractor that the specification states.

    A Python [str] is a sequence of Unicode code points; it is modelled
    as a list of [N].  Python lists are Rocq lists, indexed with stdpp's
    lookup, an index out of range being the [IndexError] of the source. *)

From stdpp Require Import base numbers list strings.

Set Default Proof Using "Type".
Local Open Scope N_scope.

(** ** Python strings *)

Abbreviation str := (list N).

(** An ASCII literal as a Python string. *)
Definition lit (s : string) : str :=
  Ascii.N_of_ascii <$> String.list_ascii_of_string s.

Module Py.

(** [str.isspace] on one code point: the Unicode white space table of
    CPython, which [str.strip] without argument uses. *)
Definition isspace (c : N) : bool :=
  ((0x09 <=? c) && (c <=? 0x0D)) || ((0x1C <=? c) && (c <=? 0x20))
  || (c =? 0x85) || (c =? 0xA0) || (c =? 0x1680)
  || ((0x2000 <=? c) && (c <=? 0x200A))
  || (c =? 0x2028) || (c =? 0x2029) || (c =? 0x202F) || (c =? 0x205F)
  || (c =? 0x3000).

Fixpoint lstrip (s : str) : str :=
  match s with
  | [] => []
  | c :: s' => if isspace c then lstrip s' else s
  end.

Definition rstrip (s : str) : str := reverse (lstrip (reverse s)).

(** [s.strip()] *)
Definition strip (s : str) : str := rstrip (lstrip s).

(** [s.startswith(p)] *)
Fixpoint startswith (p s : str) : bool :=
  match p, s with
  | [], _ => true
  | _ :: _, [] => false
  | a :: p', b :: s' => (a =? b) && startswith p' s'
  end.

(** [s.find(sub)]: the lowest index at which [sub] occurs.  The source
    tests [sub in s] and then takes [s.index(sub)]; both are read off
    this one result. *)
Fixpoint find (sub s : str) {struct s} : option nat :=
  if startswith sub s then Some 0%nat
  else match s with
       | [] => None
       | _ :: s' => S <$> find sub s'
       end.

(** [sub in s] *)
Definition contains (sub s : str) : bool :=
  match find sub s with Some _ => true | None => false end.

(** [s.count(c)] for a one-character [c]. *)
Definition count (c : N) (s : str) : Z :=
  Z.of_nat (length (List.filter (N.eqb c) s)).

(** ['sep'.join(xs)] *)
Fixpoint join (sep : str) (xs : list str) : str :=
  match xs with
  | [] => []
  | [x] => x
  | x :: rest => x ++ sep ++ join sep rest
  end.

(** The line boundaries of [str.splitlines]. *)
Definition is_linebreak (c : N) : bool :=
  (c =? 0x0A) || (c =? 0x0B) || (c =? 0x0C) || (c =? 0x0D)
  || (c =? 0x1C) || (c =? 0x1D) || (c =? 0x1E) || (c =? 0x85)
  || (c =? 0x2028) || (c =? 0x2029).

(** [s.splitlines()]: [cur] is the current line, reversed. A carriage
    return followed by a line feed is one boundary. *)
Fixpoint splitlines_from (cur : str) (s : str) : list str :=
  match s with
  | [] => match cur with [] => [] | _ => [reverse cur] end
  | c :: rest =>
      if c =? 0x0D then
        match rest with
        | d :: rest' =>
            if d =? 0x0A then reverse cur :: splitlines_from [] rest'
            else reverse cur :: splitlines_from [] rest
        | [] => reverse cur :: splitlines_from [] rest
        end
      else if is_linebreak c then reverse cur :: splitlines_from [] rest
      else splitlines_from (c :: cur) rest
  end.

Definition splitlines (s : str) : list str := splitlines_from [] s.

End Py.

(** [re.search] for the character class from U+4E00 to U+9FFF, as a
    truth value. *)
Definition in_u4e00_u9fff (c : N) : bool := (0x4e00 <=? c) && (c <=? 0x9fff).

Definition re_search_u4e00_u9fff (s : str) : bool := existsb in_u4e00_u9fff s.

(** ** The data handed to the extractor *)

(** A javalang position: line and column, both counted from 1. *)
Module Position.
Record t := mk { line : positive; column : positive }.
End Position.

(** What the two extraction methods read of a method node: its position,
    which may be absent, and [str(method_node)], the rendering of the node
    that serves as matching target. *)
Record method_node := {
  position : option Position.t;
  rendered : str
}.

(** ** [_get_method_body] *)

(** The local variables of the loop. *)
Record body_state := {
  body_lines : list str;
  brace_count : Z;
  started : bool;
  in_multiline_comment : bool
}.

Definition body_init : body_state :=
  {| body_lines := []; brace_count := 0%Z; started := false;
     in_multiline_comment := false |}.

Definition OPEN_COMMENT : str := lit "/*".
Definition CLOSE_COMMENT : str := lit "*/".
Definition LINE_COMMENT : str := lit "//".
Definition LBRACE : N := 123.
Definition RBRACE : N := 125.

(** [line.count('{') - line.count('}')] *)
Definition brace_delta (line : str) : Z :=
  (Py.count LBRACE line - Py.count RBRACE line)%Z.

(** [if '/*' in line]: the flag is set and the line cut before the opener. *)
Definition enter_comment (flag : bool) (line : str) : bool * str :=
  match Py.find OPEN_COMMENT line with
  | Some i => (true, take i line)
  | None => (flag, line)
  end.

(** [if '*/' in line]: the flag is cleared and the line cut after the
    closer. *)
Definition exit_comment (flag : bool) (line : str) : bool * str :=
  match Py.find CLOSE_COMMENT line with
  | Some i => (false, drop (i + 2) line)
  | None => (flag, line)
  end.

(** The block under [if not in_multiline_comment]. *)
Definition keep_line (bl : list str) (bc : Z) (line : str) : list str * Z :=
  if Py.startswith LINE_COMMENT (Py.strip line) then
    let comment_content := Py.strip (drop 2 (Py.strip line)) in
    if re_search_u4e00_u9fff comment_content then (bl ++ [line], bc)
    else (bl, bc)
  else if bool_decide (Py.strip line <> []) then
    (bl ++ [line], (bc + brace_delta line)%Z)
  else (bl, bc).

(** The block under [if '/*' in line and '*/' in line]. *)
Definition inline_comment (bl : list str) (bc : Z) (line : str)
  : list str * Z :=
  match Py.find OPEN_COMMENT line, Py.find CLOSE_COMMENT line with
  | Some comment_start, Some comment_end =>
      if (comment_start <? comment_end)%nat then
        let line' := take comment_start line ++ drop (comment_end + 2) line in
        if bool_decide (Py.strip line' <> []) then
          (bl ++ [line'], (bc + brace_delta line')%Z)
        else (bl, bc)
      else (bl, bc)
  | _, _ => (bl, bc)
  end.

(** One iteration of the [for] loop; the boolean tells whether the
    iteration ends in [break]. *)
Definition process_line (st : body_state) (line : str) : body_state * bool :=
  let started' := started st || Py.contains [LBRACE] line in
  if started' then
    let '(flag1, line1) := enter_comment (in_multiline_comment st) line in
    let '(flag2, line2) := exit_comment flag1 line1 in
    let '(bl3, bc3) :=
      if negb flag2 then keep_line (body_lines st) (brace_count st) line2
      else (body_lines st, brace_count st) in
    let '(bl4, bc4) := inline_comment bl3 bc3 line2 in
    ({| body_lines := bl4; brace_count := bc4; started := true;
        in_multiline_comment := flag2 |},
     (bc4 =? 0)%Z)
  else (st, false).

(** [for line in lines: ...], with its [break]. *)
Fixpoint scan_lines (st : body_state) (lines : list str) : body_state :=
  match lines with
  | [] => st
  | line :: rest =>
      let '(st', stop) := process_line st line in
      if stop then st' else scan_lines st' rest
  end.

(** The number of lines the loop has read when it ends. *)
Fixpoint lines_read (st : body_state) (lines : list str) : nat :=
  match lines with
  | [] => 0
  | line :: rest =>
      let '(st', stop) := process_line st line in
      if stop then 1 else S (lines_read st' rest)
  end.

(** Whether the loop is left through [break]. *)
Fixpoint halted (st : body_state) (lines : list str) : bool :=
  match lines with
  | [] => false
  | line :: rest =>
      let '(st', stop) := process_line st line in
      if stop then true else halted st' rest
  end.

Definition start_line_of (p : option Position.t) : nat :=
  match p with
  | Some p => Pos.to_nat (Position.line p) - 1
  | None => 0
  end.

Definition start_column_of (p : option Position.t) : nat :=
  match p with
  | Some p => Pos.to_nat (Position.column p) - 1
  | None => 0
  end.

Definition NEWLINE : str := [0x0A].

Definition _get_method_body (java_code : str) (node : method_node) : str :=
  let start_position := start_line_of (position node) in
  let lines := Py.splitlines java_code in
  Py.join NEWLINE (body_lines (scan_lines body_init (drop start_position lines))).

(** ** [_get_method_declaration] *)

(** What a call does: it returns, or an index is out of range.  The third
    case belongs to the model alone: the [while] loop is run on fuel. *)
Inductive outcome (A : Type) : Type :=
| Returned (a : A)
| IndexError
| OutOfFuel.
Arguments Returned {A} a.
Arguments IndexError {A}.
Arguments OutOfFuel {A}.

(** The variables the [while] loop updates. *)
Record cursor := {
  end_line : nat;
  end_column : nat;
  current_char_index : nat
}.

(** One iteration of the [while] loop, entered with
    [current_char_index < len(declaration_str)]; the boolean tells whether
    the iteration ends in [break]. *)
Definition loop_body (lines : list str) (declaration_str : str) (c : cursor)
  : outcome (cursor * bool) :=
  match lines !! end_line c with
  | None => IndexError
  | Some l0 =>
      let wrap := (length l0 <=? end_column c)%nat in
      let el := if wrap then S (end_line c) else end_line c in
      let ec := if wrap then 0%nat else end_column c in
      let c1 := {| end_line := el; end_column := ec;
                   current_char_index := current_char_index c |} in
      if wrap && (length lines <=? el)%nat then Returned (c1, true)
      else if (length lines <=? el)%nat then Returned (c1, true)
      else
        match lines !! el with
        | None => IndexError
        | Some l =>
            if (ec <? length l)%nat then
              match l !! ec, declaration_str !! current_char_index c with
              | Some current_char, Some expected =>
                  if current_char =? expected then
                    Returned ({| end_line := el; end_column := S ec;
                                 current_char_index :=
                                   S (current_char_index c) |}, false)
                  else
                    Returned ({| end_line := el; end_column := S ec;
                                 current_char_index :=
                                   current_char_index c |}, false)
              | _, _ => IndexError
              end
            else Returned (c1, false)
        end
  end.

(** [while current_char_index < len(declaration_str): ...] *)
Fixpoint while_loop (fuel : nat) (lines : list str) (declaration_str : str)
  (c : cursor) : outcome cursor :=
  if (current_char_index c <? length declaration_str)%nat then
    match fuel with
    | O => OutOfFuel
    | S fuel' =>
        match loop_body lines declaration_str c with
        | Returned (c', true) => Returned c'
        | Returned (c', false) => while_loop fuel' lines declaration_str c'
        | IndexError => IndexError
        | OutOfFuel => OutOfFuel
        end
    end
  else Returned c.

(** Every iteration moves the cursor by one column or one line, so this
    many iterations are enough whatever the start. *)
Definition enough_fuel (lines : list str) : nat :=
  S (length (concat lines) + length lines).

(** The body of [for i in range(start_line, end_line + 1)]: the pieces
    line [i] adds to [declaration_lines]. *)
Definition declaration_piece (lines : list str)
  (start_line start_column end_line end_column i : nat) : list str :=
  if (i =? start_line)%nat then
    match lines !! i with
    | Some l => [drop start_column l]
    | None => []
    end
  else if (i =? end_line)%nat then
    match lines !! i with
    | Some l => if (end_column <=? length l)%nat then [take end_column l] else []
    | None => []
    end
  else
    match lines !! i with
    | Some l => [l]
    | None => []
    end.

Definition declaration_lines (lines : list str)
  (start_line start_column end_line end_column : nat) : list str :=
  concat (declaration_piece lines start_line start_column end_line end_column
            <$> seq start_line (S end_line - start_line)).

Definition _get_method_declaration (java_code : str) (node : method_node)
  : outcome str :=
  let start_line := start_line_of (position node) in
  let start_column := start_column_of (position node) in
  let lines := Py.splitlines java_code in
  let declaration_str := Py.strip (rendered node) in
  match while_loop (enough_fuel lines) lines declaration_str
          {| end_line := start_line; end_column := start_column;
             current_char_index := 0 |} with
  | Returned c =>
      Returned (Py.join NEWLINE
                  (declaration_lines lines start_line start_column
                     (end_line c) (end_column c)))
  | IndexError => IndexError
  | OutOfFuel => OutOfFuel
  end.

(** ** The writers *)

(** The character class of [remove_illegal_characters]:
    00-08, 0b, 0c, 0e-1f and 7f. *)
Definition illegal_character (c : N) : bool :=
  (c <=? 0x08) || (c =? 0x0b) || (c =? 0x0c)
  || ((0x0e <=? c) && (c <=? 0x1f)) || (c =? 0x7f).

(** [re.sub(class, '', s)] *)
Definition remove_illegal_characters (s : str) : str :=
  List.filter (fun c => negb (illegal_character c)) s.

(** The header of both outputs, a four-character literal of the source. *)
Definition HEADER : str := [0x5206; 0x6bb5; 0x5185; 0x5bb9].

(** [write_to_csv]: the rows handed to the CSV writer, header first. *)
Definition write_to_csv (results : list str) : list str :=
  HEADER :: (remove_illegal_characters <$> results).

(** [write_to_excel]: the cells of column A, each with its row number. *)
Fixpoint excel_rows (row : nat) (results : list str) : list (nat * str) :=
  match results with
  | [] => []
  | content :: rest =>
      (row, remove_illegal_characters content) :: excel_rows (S row) rest
  end.

Definition write_to_excel (results : list str) : list (nat * str) :=
  (1%nat, HEADER) :: excel_rows 2 results.

(** ** Vocabulary of the statements *)

(** A line the scan treats as a single-line comment. *)
Definition is_line_comment (line : str) : bool :=
  Py.startswith LINE_COMMENT (Py.strip line).

(** The text of such a comment, as the source computes it. *)
Definition comment_content (line : str) : str :=
  Py.strip (drop 2 (Py.strip line)).

(** The scan without its [break]: the state after every line of [lines]. *)
Definition run (st : body_state) (lines : list str) : body_state :=
  foldl (fun st line => fst (process_line st line)) st lines.

(** The test that ends the loop: the body has started and the running
    brace counter is zero. *)
Definition counter_zero (st : body_state) : bool :=
  started st && (brace_count st =? 0)%Z.

(** The brace delta summed over the kept lines, the kept single-line
    comments left out. *)
Definition counted_delta (kept : list str) : Z :=
  foldr (fun line acc =>
           ((if is_line_comment line then 0 else brace_delta line) + acc)%Z)
        0%Z kept.

(** The brace delta summed over all the kept lines. *)
Definition total_delta (kept : list str) : Z :=
  foldr (fun line acc => (brace_delta line + acc)%Z) 0%Z kept.

(** The order of the end cursor: line first, then column. *)
Definition cursor_le (l1 c1 l2 c2 : nat) : Prop :=
  (l1 < l2)%nat \/ (l1 = l2 /\ (c1 <= c2)%nat).

(** The column of the cursor lies within its line, or at its end. *)
Definition column_within (lines : list str) (c : cursor) : Prop :=
  forall l, lines !! end_line c = Some l -> (end_column c <= length l)%nat.

(** What the cursor has left to walk: the characters and line ends from
    its position on. It bounds the iterations of the [while] loop. *)
Definition remaining (lines : list str) (c : cursor) : nat :=
  length (concat (drop (end_line c) lines)) + length (drop (end_line c) lines)
  - match lines !! end_line c with
    | Some l => min (end_column c) (length l)
    | None => 0
    end.

(** A Korean syllable, U+AC00 to U+D7A3: a character of the Korean range
    that the character class of the source does not cover. *)
Definition hangul_syllable (c : N) : bool := (0xAC00 <=? c) && (c <=? 0xD7A3).

(** ** Sample inputs *)

Module Sample.

(** A source text given line by line. *)
Definition source (lines : list str) : str := Py.join NEWLINE lines.

Definition node_at (l c : positive) (rendering : str) : method_node :=
  {| position := Some (Position.mk l c); rendered := rendering |}.

Definition QUOTE : str := [0x22].

(** A body with a block comment opened and closed on one line. *)
Definition inline_comment : str :=
  source [lit "void f() {"; lit "  a(); /* c */ b();"; lit "}"].


Definition inline_comment_lines : list str := Py.splitlines inline_comment.


(** A single-line comment of two Chinese characters. *)
Definition chinese_comment : str := lit "  // " ++ [0x6CE8; 0x91CA].

(** A single-line comment of two Korean syllables. *)
Definition korean_comment : str := lit "  // " ++ [0xD55C; 0xAE00].

Definition body_with_korean_comment : str :=
  source [lit "void f() {"; korean_comment; lit "}"].

(** An interface whose first method has no body and whose second has one. *)
Definition interface_two_methods : str :=
  source [lit "interface Baz {"; lit "  void qux();";
          lit "  default void f() { g(); }"; lit "}"].

(** An interface with one method, without body. *)
Definition interface_one_method : str :=
  source [lit "interface Baz {"; lit "  void qux();"; lit "}"].

(** A body with the two characters of a comment closer in a string
    literal, outside any comment. *)
Definition closer_in_literal_line : str :=
  lit "  if (x) { s = " ++ QUOTE ++ lit "*/" ++ QUOTE ++ lit "; }".

Definition closer_in_literal : str :=
  source [lit "void f() {"; closer_in_literal_line; lit "  g();"; lit "}"].

(** A method declared and defined on one line. *)
Definition one_line_method : str :=
  source [lit "class A {"; lit "  public void f() { return; }"; lit "}"].

Definition one_line_method_lines : list str := Py.splitlines one_line_method.

(** A method whose declaration runs over two lines. *)
Definition two_line_declaration : str :=
  source [lit "class A {"; lit "  public void f(int a,";
          lit "      int b) { return; }"; lit "}"].

End Sample.

(** ** The wording of the specification on stripping *)

(** The white space among the control characters that the specification
    calls normal: tab, line feed and carriage return. *)
Definition normal_whitespace (c : N) : bool :=
  (c =? 0x09) || (c =? 0x0A) || (c =? 0x0D).

(** The stripped characters in the words of the specification: the control
    characters from 00 to 1F that are not normal white space, and 7F. *)
Definition stripped_by_spec (c : N) : bool :=
  ((c <=? 0x1F) && negb (normal_whitespace c)) || (c =? 0x7F).

(** * The callers and the remaining functions *)

(** ** More of Python *)

Module PyMore.

(** [s.endswith(suffix)] *)
Definition endswith (suffix s : str) : bool :=
  Py.startswith (reverse suffix) (reverse s).

(** [s.replace(old, new)] for a non-empty [old]: every occurrence, from
    the left, the occurrences not overlapping. [skip] counts the
    characters of a replaced occurrence still to pass over. *)
Fixpoint replace_from (old new : str) (skip : nat) (s : str) : str :=
  match s with
  | [] => []
  | c :: s' =>
      match skip with
      | S k => replace_from old new k s'
      | O =>
          if Py.startswith old s
          then new ++ replace_from old new (length old - 1) s'
          else c :: replace_from old new 0 s'
      end
  end.

Definition replace (old new s : str) : str := replace_from old new 0 s.

(** [os.path.join(a, b)] of posixpath. *)
Definition os_path_join (a b : str) : str :=
  if Py.startswith (lit "/") b then b
  else if bool_decide (a = []) || endswith (lit "/") a then a ++ b
  else a ++ lit "/" ++ b.

End PyMore.

(** ** [extract_methods] *)

(** What is written to the standard output with [print], one event for
    each call, and what is logged with [logger.warning]. *)
Inductive event : Type :=
| Print (text : str)
| Warning (text : str).

(** An element of the path that javalang yields with a node: a class or
    an interface declaration, with its name and its documentation, or
    anything else (another node, a list of nodes). *)
Inductive path_element : Type :=
| ClassDeclaration (name : str) (documentation : option str)
| InterfaceDeclaration (name : str) (documentation : option str)
| OtherElement.

(** A formal parameter: the name of its type and its name. *)
Record FormalParameter := {
  param_type : str;
  param_name : str
}.

(** What [extract_methods] reads of a method declaration; [node_modifiers]
    is the set of modifiers in the order [list] iterates it. *)
Record MethodDeclaration := {
  node_base : method_node;
  node_name : str;
  node_return_type : option str;
  node_modifiers : list str;
  node_parameters : list FormalParameter;
  node_documentation : option str
}.

(** What [extract_methods] reads of the parsed tree: the package name, if
    a package is declared, and what [tree.filter(MethodDeclaration)]
    yields, each method with its path. *)
Record CompilationUnit := {
  package : option str;
  filter_MethodDeclaration : list (list path_element * MethodDeclaration)
}.

(** The dictionary built for one method. *)
Record method_info := {
  class_comment : str;
  full_declaration_name : str;
  class_name : str;
  method_name : str;
  return_type : str;
  modifiers : list str;
  parameters : list (str * str);
  node_comment : str;
  body : str;
  declaration : str
}.

Definition DEFAULT_PACKAGE : str := lit "default".
Definition VOID : str := lit "void".
Definition DOT : str := lit ".".
Definition PACKAGE_LABEL : str := [0x5305; 0x8DEF; 0x5F84; 0xFF1A].
Definition PARSE_ERROR_LABEL : str :=
  [0x89E3; 0x6790; 0x9519; 0x8BEF; 0x3A; 0x20].
Definition NO_TYPE_WARNING : str :=
  lit "Method not found within a class or interface declaration".

(** [isinstance(parent, (ClassDeclaration, InterfaceDeclaration))] *)
Definition is_type_declaration (e : path_element) : bool :=
  match e with
  | ClassDeclaration _ _ | InterfaceDeclaration _ _ => true
  | OtherElement => false
  end.

(** [for parent in reversed(path): if isinstance(...): ...; break] *)
Definition find_type_node (path : list path_element) : option path_element :=
  List.find is_type_declaration (reverse path).

Definition type_name (t : path_element) : str :=
  match t with
  | ClassDeclaration name _ | InterfaceDeclaration name _ => name
  | OtherElement => []
  end.

Definition type_documentation (t : path_element) : option str :=
  match t with
  | ClassDeclaration _ d | InterfaceDeclaration _ d => d
  | OtherElement => None
  end.

(** [d if d else ""] for a documentation that is a string or [None]. *)
Definition documentation_or_empty (d : option str) : str :=
  match d with
  | Some s => if bool_decide (s = []) then [] else s
  | None => []
  end.

(** [self.tree.package.name if self.tree.package else "default"] *)
Definition package_name_of (p : option str) : str :=
  match p with
  | Some name => name
  | None => DEFAULT_PACKAGE
  end.

(** The dictionary of one method, its body and declaration given. *)
Definition make_method_info (package_name : str) (type_node : path_element)
  (node : MethodDeclaration) (body_text declaration_text : str) : method_info :=
  {| class_comment := documentation_or_empty (type_documentation type_node);
     full_declaration_name :=
       package_name ++ DOT ++ type_name type_node ++ DOT ++ node_name node;
     class_name := type_name type_node;
     method_name := node_name node;
     return_type :=
       match node_return_type node with Some t => t | None => VOID end;
     modifiers := node_modifiers node;
     parameters := (fun p => (param_type p, param_name p)) <$> node_parameters node;
     node_comment := documentation_or_empty (node_documentation node);
     body := body_text;
     declaration := declaration_text |}.

(** The loop over the methods of the tree. [methods] and [log] are what
    has been collected and written so far. The body of a method is
    extracted before its declaration, which may raise. *)
Fixpoint extract_loop (java_code : str) (package : option str)
  (entries : list (list path_element * MethodDeclaration))
  (methods : list method_info) (log : list event)
  : list event * outcome (list method_info) :=
  match entries with
  | [] => (log, Returned methods)
  | (path, node) :: rest =>
      let package_name := package_name_of package in
      let log := log ++ [Print (PACKAGE_LABEL ++ lit " " ++ package_name)] in
      match find_type_node path with
      | Some type_node =>
          let body_text := _get_method_body java_code (node_base node) in
          match _get_method_declaration java_code (node_base node) with
          | Returned declaration_text =>
              extract_loop java_code package rest
                (methods ++ [make_method_info package_name type_node node
                               body_text declaration_text]) log
          | IndexError => (log, IndexError)
          | OutOfFuel => (log, OutOfFuel)
          end
      | None =>
          extract_loop java_code package rest methods
            (log ++ [Warning NO_TYPE_WARNING])
      end
  end.

(** [extract_methods], for an extractor on [java_code] whose field [tree]
    is [tree]. [parse] is the parser: the tree, or the text of the
    exception it raises. The result is what was written and logged, and
    the list returned or the exception raised. *)
Definition extract_methods (parse : str -> CompilationUnit + str)
  (java_code : str) (tree : option CompilationUnit)
  : list event * outcome (list method_info) :=
  match tree with
  | Some t =>
      extract_loop java_code (package t) (filter_MethodDeclaration t) [] []
  | None =>
      match parse java_code with
      | inl t =>
          extract_loop java_code (package t) (filter_MethodDeclaration t) [] []
      | inr e => ([Print (PARSE_ERROR_LABEL ++ e)], Returned [])
      end
  end.

(** ** [parse_main] *)

(** The exceptions that opening and reading a file can raise: the file
    cannot be opened, or its bytes are not valid UTF-8. *)
Inductive read_error : Type :=
| OSError
| UnicodeDecodeError.

(** What [open(file_path, 'r', encoding='utf-8')] and [file.read()] give
    for a file: its text, or the exception raised. *)
Inductive file_read : Type :=
| ReadText (java_code : str)
| ReadRaises (e : read_error).

(** A directory as [os.walk] sees it: its subdirectories and its files,
    by name, in the order they are listed; a file with what reading it
    gives. *)
#[warnings="-register-all"]
Inductive directory : Type :=
| Directory (dirs : list (str * directory)) (files : list (str * file_read)).

(** How a run over the files ends: it finishes, or an exception leaves
    it, none being caught: the [IndexError] of an extraction, the
    exception of a read, or that of a writer whose output file cannot be
    created. The last case belongs to the model alone, as in [outcome]. *)
Inductive ending (A : Type) : Type :=
| Finished (a : A)
| RaisedIndexError
| RaisedReadError (e : read_error)
| RaisedWriteError
| FuelOut.
Arguments Finished {A} a.
Arguments RaisedIndexError {A}.
Arguments RaisedReadError {A} e.
Arguments RaisedWriteError {A}.
Arguments FuelOut {A}.

(** The parts of the text block of one method, between the fields. *)
Definition BLOCK_PATH : str :=
  [0x2D; 0x20; 0x7EDD; 0x5BF9; 0x8DEF; 0x5F84; 0x3A; 0x20].
Definition BLOCK_CLASS_COMMENT : str :=
  [0x0A; 0x20; 0x20; 0x20; 0x2D; 0x20; 0x7C7B; 0x6CE8; 0x91CA; 0x3A; 0x20;
   0x0A; 0x20; 0x20; 0x20].
Definition BLOCK_CLASS_NAME : str :=
  [0x0A; 0x20; 0x20; 0x20; 0x2D; 0x20; 0x7C7B; 0x540D; 0x3A; 0x20].
Definition BLOCK_METHOD : str :=
  [0x0A; 0x20; 0x20; 0x20; 0x2D; 0x20; 0x65B9; 0x6CD5; 0x4F53; 0x53CA;
   0x6CE8; 0x91CA; 0x3A; 0x0A; 0x20; 0x20; 0x20; 0x20; 0x20; 0x20; 0x20].
Definition BLOCK_INDENT : str := [0x0A; 0x20; 0x20; 0x20].

(** The formatted string [content] of one method. *)
Definition format_content (method : method_info) : str :=
  BLOCK_PATH ++ full_declaration_name method
  ++ BLOCK_CLASS_COMMENT ++ class_comment method
  ++ BLOCK_CLASS_NAME ++ class_name method
  ++ BLOCK_METHOD ++ node_comment method
  ++ BLOCK_INDENT ++ body method
  ++ BLOCK_INDENT.

(** ["-" * 50] *)
Definition DASHES : str := replicate 50 0x2D.

Definition JAVA_EXTENSION : str := lit ".java".

(** What [parse_main] leaves on the disk. *)
Inductive written : Type :=
| WroteExcel (path : str) (cells : list (nat * str))
| WroteCsv (path : str) (rows : list str)
| WroteNothing.

Section Walk.
Variable parse : str -> CompilationUnit + str.
Variables exclude_dirs exclude_files : list str.
(** Whether a file can be created at a path; when it cannot,
    [workbook.save(output_file)] and [open(output_file, 'w', ...)] raise. *)
Variable writable : str -> bool.

(** [for method in methods: ...]: the block of each method is printed,
    followed by a line of dashes, and appended to [results]. *)
Fixpoint append_methods (methods : list method_info)
  (results : list str) (log : list event) : list str * list event :=
  match methods with
  | [] => (results, log)
  | method :: rest =>
      let content := format_content method in
      append_methods rest (results ++ [content])
        (log ++ [Print content; Print DASHES])
  end.

(** [for file in files: ...]: the files of one directory. A file that
    passes the test on its name is opened and read, which may raise. *)
Fixpoint visit_files (files : list (str * file_read))
  (results : list str) (log : list event) : list event * ending (list str) :=
  match files with
  | [] => (log, Finished results)
  | (file, content) :: rest =>
      if PyMore.endswith JAVA_EXTENSION file
         && negb (bool_decide (file ∈ exclude_files)) then
        match content with
        | ReadRaises e => (log, RaisedReadError e)
        | ReadText java_code =>
            match extract_methods parse java_code None with
            | (log', Returned methods) =>
                let '(results', log'') :=
                  append_methods methods results (log ++ log') in
                visit_files rest results' log''
            | (log', IndexError) => (log ++ log', RaisedIndexError)
            | (log', OutOfFuel) => (log ++ log', FuelOut)
            end
        end
      else visit_files rest results log
  end.

(** The descent of [os.walk] into the subdirectories of one directory,
    those named in [exclude_dirs] pruned; [walk_one] walks one of them. *)
Section Dirs.
Variable walk_one :
  directory -> list str -> list event -> list event * ending (list str).

Fixpoint walk_dirs (dirs : list (str * directory))
  (results : list str) (log : list event) : list event * ending (list str) :=
  match dirs with
  | [] => (log, Finished results)
  | (name, sub) :: rest =>
      if bool_decide (name ∈ exclude_dirs) then walk_dirs rest results log
      else
        match walk_one sub results log with
        | (log', Finished results') => walk_dirs rest results' log'
        | (log', RaisedIndexError) => (log', RaisedIndexError)
        | (log', RaisedReadError e) => (log', RaisedReadError e)
        | (log', RaisedWriteError) => (log', RaisedWriteError)
        | (log', FuelOut) => (log', FuelOut)
        end
  end.
End Dirs.

(** [for root, dirs, files in os.walk(root_dir): ...], top down: the
    files of a directory, then its subdirectories, each in turn. *)
Fixpoint walk (d : directory) (results : list str) (log : list event)
  {struct d} : list event * ending (list str) :=
  match d with
  | Directory dirs files =>
      match visit_files files results log with
      | (log', Finished results') => walk_dirs walk dirs results' log'
      | (log', RaisedIndexError) => (log', RaisedIndexError)
      | (log', RaisedReadError e) => (log', RaisedReadError e)
      | (log', RaisedWriteError) => (log', RaisedWriteError)
      | (log', FuelOut) => (log', FuelOut)
      end
  end.

(** [parse_main]. [root] is the directory at [root_dir], or [None] when
    there is none, in which case [os.walk] yields nothing. *)
Definition parse_main (root : option directory)
  (output_file output_format : str) : list event * ending written :=
  let walked :=
    match root with
    | Some d => walk d [] []
    | None => ([], Finished [])
    end in
  match walked with
  | (log, Finished results) =>
      if bool_decide (output_format = lit "excel") then
        let path := output_file ++ lit ".xlsx" in
        if writable path then
          (log, Finished (WroteExcel path (write_to_excel results)))
        else (log, RaisedWriteError)
      else if bool_decide (output_format = lit "csv") then
        let path := output_file ++ lit ".csv" in
        if writable path then
          (log, Finished (WroteCsv path (write_to_csv results)))
        else (log, RaisedWriteError)
      else (log, Finished WroteNothing)
  | (log, RaisedIndexError) => (log, RaisedIndexError)
  | (log, RaisedReadError e) => (log, RaisedReadError e)
  | (log, RaisedWriteError) => (log, RaisedWriteError)
  | (log, FuelOut) => (log, FuelOut)
  end.

End Walk.

(** ** [convert_xlsx_to_csv] *)

Definition XLSX_EXTENSION : str := lit ".xlsx".
Definition CSV_EXTENSION : str := lit ".csv".


Definition csv_file_path (dir filename : str) : str :=
  PyMore.os_path_join (dir ++ lit "/csv")
    (PyMore.replace XLSX_EXTENSION CSV_EXTENSION filename).



(** ** Vocabulary of the statements on the callers *)

(** The method has an enclosing class or interface on its path. *)
Definition has_type (entry : list path_element * MethodDeclaration) : bool :=
  match find_type_node entry.1 with Some _ => true | None => false end.


(** The declaration scan of the method raises: its start line is not a
    line of the text and its rendering is not blank. *)
Definition out_of_text (java_code : str)
  (entry : list path_element * MethodDeclaration) : Prop :=
  (length (Py.splitlines java_code)
   <= start_line_of (position (node_base entry.2)))%nat
  /\ Py.strip (rendered (node_base entry.2)) <> [].


(** The files of a directory that [parse_main] opens. *)
Definition eligible (exclude_files : list str) (file : str * file_read) : bool :=
  PyMore.endswith JAVA_EXTENSION file.1
  && negb (bool_decide (file.1 ∈ exclude_files)).

(** What reading gives for the files that a complete walk opens, in the
    order of the walk: the files of a directory, then those of each
    subdirectory that is not excluded. *)
Fixpoint files_read (exclude_dirs exclude_files : list str) (d : directory)
  : list file_read :=
  match d with
  | Directory dirs files =>
      (List.filter (eligible exclude_files) files).*2
      ++ concat ((fun p : str * directory =>
                    if bool_decide (p.1 ∈ exclude_dirs) then []
                    else files_read exclude_dirs exclude_files p.2) <$> dirs)
  end.

Definition text_of (r : file_read) : option str :=
  match r with
  | ReadText java_code => Some java_code
  | ReadRaises _ => None
  end.

(** The texts of these files, those that can be read. *)
Definition texts_read (exclude_dirs exclude_files : list str) (d : directory)
  : list str :=
  omap text_of (files_read exclude_dirs exclude_files d).

(** The blocks one text gives when its extraction returns. *)
Definition blocks_of (parse : str -> CompilationUnit + str) (java_code : str)
  : list str :=
  match extract_methods parse java_code None with
  | (_, Returned methods) => format_content <$> methods
  | _ => []
  end.

(** The extraction of the text raises. *)
Definition extraction_raises (parse : str -> CompilationUnit + str)
  (java_code : str) : Prop :=
  (extract_methods parse java_code None).2 = IndexError.

(** No proper overlap of [old] with itself: [old] does not start again
    inside an occurrence of [old]. *)
Definition border_free (old : str) : Prop :=
  forall s1, s1 <> [] -> (length s1 < length old)%nat ->
    Py.startswith old (s1 ++ old) = false.


(** The file is read and its extraction returns. *)
Definition quiet (parse : str -> CompilationUnit + str) (r : file_read) : Prop :=
  exists java_code,
    r = ReadText java_code
    /\ (extract_methods parse java_code None).2 <> IndexError.

(** Going through the given reads in order, as [parse_main] does with the
    files it opens: the blocks of each text are appended and printed, and
    the first read or extraction that raises ends the run. *)
Fixpoint collect (parse : str -> CompilationUnit + str) (reads : list file_read)
  (results : list str) (log : list event) : list event * ending (list str) :=
  match reads with
  | [] => (log, Finished results)
  | ReadRaises e :: _ => (log, RaisedReadError e)
  | ReadText java_code :: rest =>
      match extract_methods parse java_code None with
      | (log', Returned methods) =>
          let '(results', log'') :=
            append_methods methods results (log ++ log') in
          collect parse rest results' log''
      | (log', IndexError) => (log ++ log', RaisedIndexError)
      | (log', OutOfFuel) => (log ++ log', FuelOut)
      end
  end.


(** A row or cell free of the characters the writers strip. *)
Definition clean (s : str) : Prop := existsb illegal_character s = false.

(** ** Sample trees and directories *)

Module Demo.

Definition BAZ : path_element := InterfaceDeclaration (lit "Baz") None.

Definition in_baz : list path_element := [OtherElement; BAZ; OtherElement].

(** A path through an outer and an inner class. *)
Definition nested : list path_element :=
  [OtherElement; ClassDeclaration (lit "Outer") (Some (lit "outer"));
   OtherElement; ClassDeclaration (lit "Inner") None; OtherElement].

Definition method_at (l c : positive) (name : string) : MethodDeclaration :=
  {| node_base := Sample.node_at l c (lit "MethodDeclaration");
     node_name := lit name;
     node_return_type := None;
     node_modifiers := [];
     node_parameters := [];
     node_documentation := None |}.

(** The two methods of [Sample.interface_two_methods], and a third method
    outside any class or interface. *)
Definition tree : CompilationUnit :=
  {| package := None;
     filter_MethodDeclaration :=
       [(in_baz, method_at 2 3 "qux"); (in_baz, method_at 3 3 "f");
        ([OtherElement], method_at 1 1 "stray")] |}.


(** A parser that knows one text. *)
Definition parse (java_code : str) : CompilationUnit + str :=
  if bool_decide (java_code = Sample.interface_two_methods) then inl tree
  else inr (lit "syntax error").

Definition src_dir : directory :=
  Directory []
    [(lit "Baz.java", ReadText Sample.interface_two_methods);
     (lit "notes.txt", ReadText (lit "to do"));
     (lit "Broken.java", ReadText (lit "class {"))].

Definition test_dir : directory :=
  Directory [] [(lit "BazTest.java", ReadText Sample.interface_two_methods)].

Definition project : directory :=
  Directory [(lit "test", test_dir); (lit "src", src_dir)]
    [(lit "package-info.java", ReadText Sample.interface_two_methods)].



Definition exclude_dirs : list str := [lit "target"; lit "test"].
Definition exclude_files : list str := [lit "package-info.java"].

(** A disk on which nothing can be created below [missing]. *)
Definition writable (path : str) : bool :=
  negb (Py.startswith (lit "missing/") path).

End Demo.

(** ** Vocabulary of further statements on the extractor *)

(** A text without line boundary. *)
Definition no_linebreak (s : str) : Prop :=
  Forall (fun c => Py.is_linebreak c = false) s.

(** [k] is a contiguous piece of [l]. *)
Definition piece_of (k l : str) : Prop := exists a b, l = a ++ k ++ b.

(** What holds of every line kept in a body: it is not blank, it holds no
    block-comment opener, and if it is a single-line comment its text
    holds a character from U+4E00 to U+9FFF. *)
Definition kept_well (k : str) : Prop :=
  Py.strip k <> []
  /\ Py.find OPEN_COMMENT k = None
  /\ (is_line_comment k = true ->
      re_search_u4e00_u9fff (comment_content k) = true).

(** The source text the declaration scan has walked over when its cursor
    is at line [el], column [ec], from line [sl], column [sc]: the lines
    taken one after the other, without their line ends. *)
Definition walked (lines : list str) (sl sc el ec : nat) : str :=
  if (el =? sl)%nat then take (ec - sc) (drop sc (default [] (lines !! sl)))
  else drop sc (default [] (lines !! sl))
       ++ concat (take (el - sl - 1) (drop (S sl) lines))
       ++ take ec (default [] (lines !! el)).

(** What the scan keeps of the lines [scanned]: well-kept pieces of these
    lines, without line boundary. *)
Definition kept_from (scanned : list str) (k : str) : Prop :=
  kept_well k /\ no_linebreak k /\ exists l, l ∈ scanned /\ piece_of k l.

Module Demo2.

(** The state of the scan after an opening line and the opening of a
    block comment. *)
Definition in_comment : body_state :=
  {| body_lines := [lit "void f() {"]; brace_count := 1; started := true;
     in_multiline_comment := true |}.

End Demo2.

(** ** Well-formed bodies *)




(** * Properties *)

(** ** Substring search *)

Section Find.
Implicit Types sub s : str.

Lemma startswith_take sub s k :
  Py.startswith sub (take k s) = true -> Py.startswith sub s = true.
Proof.
  revert s k. induction sub as [|a sub IH]; intros s k; [done|].
  destruct s as [|b s]; [by rewrite take_nil|].
  destruct k as [|k]; [done|]. simpl.
  intros [-> H]%andb_true_iff. by rewrite (IH _ _ H).
Qed.

Lemma find_lt sub s i : sub <> [] -> Py.find sub s = Some i -> (i < length s)%nat.
Proof.
  intros Hsub. revert i. induction s as [|b s IH]; intros i; simpl.
  - destruct sub; [done|]. discriminate.
  - destruct (Py.startswith sub (b :: s)); [intros [= <-]; lia|].
    destruct (Py.find sub s) as [j|]; [|discriminate].
    intros [= <-]. specialize (IH j eq_refl). lia.
Qed.

(** No occurrence lies before the first one. *)
Lemma find_take_None sub s i :
  sub <> [] -> Py.find sub s = Some i -> Py.find sub (take i s) = None.
Proof.
  intros Hsub. revert i. induction s as [|b s IH]; intros i.
  - simpl. destruct sub; [done|]. discriminate.
  - simpl. destruct (Py.startswith sub (b :: s)) eqn:Hp.
    + intros [= <-]. simpl. by destruct sub.
    + destruct (Py.find sub s) as [j|] eqn:Hj; [|discriminate].
      intros [= <-]. cbn [take Py.find].
      destruct (Py.startswith sub (b :: take j s)) eqn:Hq.
      * apply (startswith_take sub (b :: s) (S j)) in Hq. congruence.
      * by rewrite (IH j eq_refl).
Qed.

(** A suffix of a text without occurrence has none either. *)
Lemma find_drop_None sub s k :
  Py.find sub s = None -> Py.find sub (drop k s) = None.
Proof.
  revert k. induction s as [|b s IH]; intros k H; [by rewrite drop_nil|].
  destruct k as [|k]; [done|]. simpl. apply IH.
  simpl in H. destruct (Py.startswith sub (b :: s)); [discriminate|].
  by destruct (Py.find sub s).
Qed.

Lemma startswith_length sub s :
  Py.startswith sub s = true -> (length sub <= length s)%nat.
Proof.
  revert s. induction sub as [|a sub IH]; intros s; simpl; [lia|].
  destruct s as [|b s]; [done|].
  intros [_ H]%andb_true_iff. specialize (IH _ H). simpl. lia.
Qed.

Lemma startswith_take_ge sub s k :
  (length sub <= k)%nat ->
  Py.startswith sub s = true -> Py.startswith sub (take k s) = true.
Proof.
  revert s k. induction sub as [|a sub IH]; intros s k Hk; [done|].
  destruct s as [|b s]; [done|].
  destruct k as [|k]; [simpl in Hk; lia|]. simpl.
  intros [-> H]%andb_true_iff. simpl in Hk. simpl. apply IH; [lia|done].
Qed.

(** An occurrence ends within the text. *)
Lemma find_end sub s i :
  Py.find sub s = Some i -> (i + length sub <= length s)%nat.
Proof.
  revert i. induction s as [|b s IH]; intros i; simpl.
  - destruct sub; [|done]. intros [= <-]. simpl. lia.
  - destruct (Py.startswith sub (b :: s)) eqn:Hp.
    + intros [= <-]. by apply startswith_length in Hp.
    + destruct (Py.find sub s) as [j|]; [|done].
      intros [= <-]. specialize (IH j eq_refl). simpl. lia.
Qed.

(** The first occurrence in a prefix of a text is the first in the text. *)
Lemma find_take_Some sub s k i :
  Py.find sub (take k s) = Some i -> Py.find sub s = Some i.
Proof.
  revert k i. induction s as [|b s IH]; intros k i.
  - by rewrite take_nil.
  - destruct k as [|k].
    + simpl. destruct sub; [|done]. done.
    + intros H. pose proof (find_end _ _ _ H) as Hlen.
      cbn [take Py.find] in *.
      destruct (Py.startswith sub (b :: take k s)) eqn:Hp.
      * apply (startswith_take sub (b :: s) (S k)) in Hp. by rewrite Hp.
      * destruct (Py.find sub (take k s)) as [j|] eqn:Hj; [|done].
        injection H as <-. rewrite (IH k j Hj).
        destruct (Py.startswith sub (b :: s)) eqn:Hq; [|done].
        apply (startswith_take_ge sub (b :: s) (S k)) in Hq; [|].
        -- cbn [take] in Hq. congruence.
        -- rewrite length_cons, length_take in Hlen. lia.
Qed.

End Find.

(** ** The body scan, line by line *)

Section Body.
Implicit Types (st : body_state) (line : str) (lines : list str).

Lemma opener_gone flag line :
  Py.find OPEN_COMMENT
    (exit_comment (enter_comment flag line).1 (enter_comment flag line).2).2
  = None.
Proof.
  assert (Py.find OPEN_COMMENT (enter_comment flag line).2 = None) as H1.
  { unfold enter_comment.
    destruct (Py.find OPEN_COMMENT line) as [i|] eqn:Hi; simpl; [|done].
    by apply find_take_None. }
  unfold exit_comment.
  destruct (Py.find CLOSE_COMMENT _); simpl; [|done].
  by apply find_drop_None.
Qed.

(** The special case for a comment opened and closed on one line is never
    taken: by then the line has been cut before its first opener. *)
Lemma inline_comment_skipped bl bc line :
  Py.find OPEN_COMMENT line = None -> inline_comment bl bc line = (bl, bc).
Proof. unfold inline_comment. by intros ->. Qed.

Lemma process_line_unfold st line :
  process_line st line =
  if started st || Py.contains [LBRACE] line then
    let flag1 := (enter_comment (in_multiline_comment st) line).1 in
    let line1 := (enter_comment (in_multiline_comment st) line).2 in
    let flag2 := (exit_comment flag1 line1).1 in
    let line2 := (exit_comment flag1 line1).2 in
    let kept :=
      if negb flag2 then keep_line (body_lines st) (brace_count st) line2
      else (body_lines st, brace_count st) in
    ({| body_lines := kept.1; brace_count := kept.2; started := true;
        in_multiline_comment := flag2 |}, (kept.2 =? 0)%Z)
  else (st, false).
Proof.
  unfold process_line.
  destruct (started st || Py.contains [LBRACE] line); [|done].
  pose proof (opener_gone (in_multiline_comment st) line) as Hgone.
  destruct (enter_comment _ line) as [flag1 line1]. simpl in *.
  destruct (exit_comment flag1 line1) as [flag2 line2]. simpl in *.
  destruct (if negb flag2 then _ else _) as [bl3 bc3]. simpl.
  by rewrite inline_comment_skipped.
Qed.

(** A line with an opener and no closer before it is dropped whole, and
    the flag is left set, also when a closer follows the opener. *)
Lemma opener_drops_line st line i :
  started st || Py.contains [LBRACE] line = true ->
  Py.find OPEN_COMMENT line = Some i ->
  Py.find CLOSE_COMMENT (take i line) = None ->
  process_line st line
  = ({| body_lines := body_lines st; brace_count := brace_count st;
        started := true; in_multiline_comment := true |},
     (brace_count st =? 0)%Z).
Proof.
  intros Hs Ho Hc. rewrite process_line_unfold, Hs.
  unfold enter_comment. rewrite Ho. simpl.
  unfold exit_comment. rewrite Hc. done.
Qed.

(** So it is for every line whose first opener precedes its first
    closer. *)
Lemma inline_comment_drops_line st line i j :
  started st || Py.contains [LBRACE] line = true ->
  Py.find OPEN_COMMENT line = Some i ->
  Py.find CLOSE_COMMENT line = Some j ->
  (i < j)%nat ->
  process_line st line
  = ({| body_lines := body_lines st; brace_count := brace_count st;
        started := true; in_multiline_comment := true |},
     (brace_count st =? 0)%Z).
Proof.
  intros Hs Ho Hc Hij. apply (opener_drops_line st line i); [done|done|].
  destruct (Py.find CLOSE_COMMENT (take i line)) as [k|] eqn:Hk; [|done].
  pose proof (find_end _ _ _ Hk) as Hlen.
  apply find_take_Some in Hk. rewrite length_take in Hlen.
  assert (k = j) by congruence. lia.
Qed.

(** The loop ends at a line exactly when, after that line, the body has
    started and the counter is zero. *)
Lemma process_line_stop st line :
  (process_line st line).2 = counter_zero (process_line st line).1.
Proof.
  rewrite process_line_unfold. unfold counter_zero.
  destruct (started st || Py.contains [LBRACE] line) eqn:Hs; simpl; [done|].
  apply orb_false_iff in Hs as [-> _]. done.
Qed.

Lemma counted_delta_snoc kept line :
  counted_delta (kept ++ [line]) =
  (counted_delta kept + if is_line_comment line then 0 else brace_delta line)%Z.
Proof.
  unfold counted_delta. induction kept as [|l kept IH]; simpl; [lia|].
  rewrite IH. lia.
Qed.

(** When the kept comments hold balanced braces, or none, the sum over
    all the kept lines is the sum the counter keeps. *)
Lemma total_delta_counted kept :
  Forall (fun line => is_line_comment line = true -> brace_delta line = 0%Z) kept ->
  total_delta kept = counted_delta kept.
Proof.
  induction 1 as [|line kept Hline _ IH]; [done|].
  unfold total_delta, counted_delta in *. simpl. rewrite IH.
  destruct (is_line_comment line); [|done]. by rewrite Hline.
Qed.

Lemma keep_line_counted bl bc line :
  bc = counted_delta bl ->
  (keep_line bl bc line).2 = counted_delta (keep_line bl bc line).1.
Proof.
  intros ->. unfold keep_line.
  destruct (Py.startswith LINE_COMMENT (Py.strip line)) eqn:Hc.
  - destruct (re_search_u4e00_u9fff _); simpl; [|done].
    rewrite counted_delta_snoc. unfold is_line_comment. rewrite Hc. lia.
  - case_bool_decide; simpl; [|done].
    rewrite counted_delta_snoc. unfold is_line_comment. by rewrite Hc.
Qed.

(** The counter is the delta of the kept lines that are not comments. *)
Lemma process_line_counted st line :
  brace_count st = counted_delta (body_lines st) ->
  brace_count (process_line st line).1
  = counted_delta (body_lines (process_line st line).1).
Proof.
  intros Hinv. rewrite process_line_unfold.
  destruct (started st || Py.contains [LBRACE] line); [|done]. simpl.
  destruct (negb _); [|done]. by apply keep_line_counted.
Qed.

Lemma run_counted st lines :
  brace_count st = counted_delta (body_lines st) ->
  brace_count (run st lines) = counted_delta (body_lines (run st lines)).
Proof.
  revert st. induction lines as [|line lines IH]; intros st Hinv; [done|].
  apply IH. by apply process_line_counted.
Qed.

Lemma lines_read_le st lines : (lines_read st lines <= length lines)%nat.
Proof.
  revert st. induction lines as [|line lines IH]; intros st; simpl; [lia|].
  destruct (process_line st line) as [st' [|]]; [lia|].
  specialize (IH st'). lia.
Qed.

(** The scan is the run over the lines it has read. *)
Lemma scan_lines_run st lines :
  scan_lines st lines = run st (take (lines_read st lines) lines).
Proof.
  revert st. induction lines as [|line lines IH]; intros st; simpl; [done|].
  destruct (process_line st line) as [st' [|]] eqn:Hp; simpl.
  - unfold run. simpl. by rewrite Hp.
  - rewrite IH. unfold run. simpl. by rewrite Hp.
Qed.

(** Left through [break]: the last line read is the first one after which
    the counter is zero with the body started. *)
Lemma halted_first_zero st lines :
  halted st lines = true ->
  exists m, lines_read st lines = S m /\ (m < length lines)%nat
    /\ counter_zero (run st (take (S m) lines)) = true
    /\ forall k, (k < m)%nat -> counter_zero (run st (take (S k) lines)) = false.
Proof.
  revert st. induction lines as [|line lines IH]; intros st; [done|].
  pose proof (process_line_stop st line) as Hstop.
  cbn [halted lines_read take run foldl length].
  destruct (process_line st line) as [st' stop]. cbn [fst snd] in *.
  destruct stop.
  - intros _. exists 0%nat. rewrite take_0. cbn [foldl].
    repeat split; [lia|done|intros; lia].
  - intros (m & -> & Hm & Hz & Hbefore)%IH. exists (S m).
    repeat split; [lia|exact Hz|].
    intros [|k] Hk.
    + rewrite take_0. cbn [foldl]. done.
    + apply Hbefore. lia.
Qed.

(** Left at the end of the lines: every line was read and the counter was
    zero after none of them. *)
Lemma not_halted_no_zero st lines :
  halted st lines = false ->
  lines_read st lines = length lines
  /\ forall k, (k < length lines)%nat ->
       counter_zero (run st (take (S k) lines)) = false.
Proof.
  revert st. induction lines as [|line lines IH]; intros st.
  - intros _. split; [done|]. simpl. intros; lia.
  - pose proof (process_line_stop st line) as Hstop.
    cbn [halted lines_read take run foldl length].
    destruct (process_line st line) as [st' stop]. cbn [fst snd] in *.
    destruct stop; [done|].
    intros [-> Hno]%IH. split; [done|].
    intros [|k] Hk.
    + rewrite take_0. cbn [foldl]. done.
    + apply Hno. lia.
Qed.

End Body.

(** ** Claims on [_get_method_body] *)

(** C1. A line that opens and closes a block comment is meant to lose the
    comment and keep the rest, the lines after it being outside any
    comment. The code does otherwise: on the three-line method of
    [Sample.inline_comment] the second line is cut at the opener, the
    closer is then no longer on the line, so nothing of the line is kept,
    the flag stays set, the closing brace on the third line is dropped as
    comment text and the loop runs to the end of the text with the
    counter at one. *)
Theorem inline_block_comment_swallows_rest :
  _get_method_body Sample.inline_comment (Sample.node_at 1 1 [])
  = lit "void f() {"
  /\ body_lines (scan_lines body_init Sample.inline_comment_lines)
     = [lit "void f() {"]
  /\ in_multiline_comment (scan_lines body_init Sample.inline_comment_lines)
     = true
  /\ brace_count (scan_lines body_init Sample.inline_comment_lines) = 1%Z
  /\ halted body_init Sample.inline_comment_lines = false.
Proof. vm_compute. done. Qed.


(** The loop and its break, for every list of scanned lines: the scan
    reads no more lines than there are and its result is the state after
    the lines read; the counter is the brace delta summed over the kept
    lines other than kept single-line comments; the loop is left through
    its break exactly at the first line after which the body has started
    and the counter is zero. *)
Lemma scan_stops_at_first_zero (lines : list str) :
  let st := scan_lines body_init lines in
  let n := lines_read body_init lines in
  let zero_after k := counter_zero (run body_init (take (S k) lines)) in
  (n <= length lines)%nat
  /\ st = run body_init (take n lines)
  /\ brace_count st = counted_delta (body_lines st)
  /\ (forall k, (S k < n)%nat -> zero_after k = false)
  /\ (halted body_init lines = true
      <-> exists k, (k < length lines)%nat /\ zero_after k = true)
  /\ (halted body_init lines = true ->
      zero_after (n - 1)%nat = true /\ counted_delta (body_lines st) = 0%Z)
  /\ (halted body_init lines = false -> n = length lines)
  /\ (Forall (fun line => is_line_comment line = true -> brace_delta line = 0%Z)
        (body_lines st) ->
      total_delta (body_lines st) = brace_count st).
Proof.
  intros st n zero_after. subst st n zero_after. cbv beta.
  assert (brace_count (scan_lines body_init lines)
          = counted_delta (body_lines (scan_lines body_init lines))) as Hc.
  { rewrite scan_lines_run. by apply run_counted. }
  split_and!; [apply lines_read_le|apply scan_lines_run|exact Hc|..].
  - intros k Hk. destruct (halted body_init lines) eqn:Hh.
    + apply halted_first_zero in Hh as (m & Hn & _ & _ & Hb). apply Hb. lia.
    + apply not_halted_no_zero in Hh as [Hn Hno]. apply Hno. lia.
  - split.
    + intros (m & _ & Hm & Hz & _)%halted_first_zero. by exists m.
    + intros (k & Hk & Hz). destruct (halted body_init lines) eqn:Hh; [done|].
      apply not_halted_no_zero in Hh as [_ Hno]. by rewrite Hno in Hz.
  - intros (m & Hn & _ & Hz & _)%halted_first_zero. rewrite Hn.
    replace (S m - 1)%nat with m by lia. split; [done|].
    rewrite <- Hc, scan_lines_run, Hn.
    apply andb_true_iff in Hz as [_ Hz]. by apply Z.eqb_eq.
  - by intros [Hn _]%not_halted_no_zero.
  - intros Hkept. by rewrite Hc, total_delta_counted.
Qed.












(** C3, counterexample. A single-line comment of Korean syllables,
    characters of the Korean range, is left out of the body. *)
Lemma korean_comment_dropped :
  is_line_comment Sample.korean_comment = true
  /\ existsb hangul_syllable (comment_content Sample.korean_comment) = true
  /\ _get_method_body Sample.body_with_korean_comment (Sample.node_at 1 1 [])
     = Sample.source [lit "void f() {"; lit "}"].
Proof. vm_compute. done. Qed.

(** C3, amended. For every scanned body line that holds no block-comment
    opener or closer, read outside a block comment, and whose trimmed form
    starts with two slashes: the line is appended verbatim to the kept
    lines when the comment text holds at least one character from U+4E00
    to U+9FFF, and is left out when it holds none; the brace counter is
    unchanged either way. *)
Theorem line_comment_kept_iff_u4e00_u9fff (st : body_state) (line : str) :
  started st || Py.contains [LBRACE] line = true ->
  in_multiline_comment st = false ->
  Py.find OPEN_COMMENT line = None ->
  Py.find CLOSE_COMMENT line = None ->
  is_line_comment line = true ->
  process_line st line
  = ({| body_lines :=
          if re_search_u4e00_u9fff (comment_content line)
          then body_lines st ++ [line] else body_lines st;
        brace_count := brace_count st; started := true;
        in_multiline_comment := false |}, (brace_count st =? 0)%Z).
Proof.
  intros Hs Hf Ho Hc Hl. rewrite process_line_unfold, Hs, Hf.
  unfold enter_comment. rewrite Ho. simpl.
  unfold exit_comment. rewrite Hc. simpl.
  unfold keep_line. unfold is_line_comment in Hl. rewrite Hl.
  unfold comment_content. by destruct (re_search_u4e00_u9fff _).
Qed.

Lemma line_comment_kept_iff_u4e00_u9fff_witness :
  process_line {| body_lines := [lit "void f() {"]; brace_count := 1;
                  started := true; in_multiline_comment := false |}
    Sample.chinese_comment
  = ({| body_lines := [lit "void f() {"; Sample.chinese_comment];
        brace_count := 1; started := true;
        in_multiline_comment := false |}, false).
Proof.
  exact (line_comment_kept_iff_u4e00_u9fff
           {| body_lines := [lit "void f() {"]; brace_count := 1;
              started := true; in_multiline_comment := false |}
           Sample.chinese_comment eq_refl eq_refl eq_refl eq_refl eq_refl).
Defined.

(** C4, counterexample. The first method of [Sample.interface_two_methods]
    has no body, but the next method has one: the scan starts there and
    returns that line as the body of the first. *)
Lemma bodiless_method_takes_next_body :
  started (scan_lines body_init
             (drop 1 (Py.splitlines Sample.interface_two_methods))) = true
  /\ _get_method_body Sample.interface_two_methods (Sample.node_at 2 3 [])
     = lit "  default void f() { g(); }".
Proof. vm_compute. done. Qed.

Lemma scan_lines_not_started (lines : list str) :
  Forall (fun line => Py.contains [LBRACE] line = false) lines ->
  scan_lines body_init lines = body_init.
Proof.
  induction 1 as [|line lines Hline _ IH]; [done|].
  simpl. unfold process_line. simpl. rewrite Hline. exact IH.
Qed.

(** C4, amended. For every method such that no line from its start line
    to the end of the text holds an opening brace, the body is never
    marked as started and the returned body is empty. *)
Theorem no_brace_no_body (java_code : str) (node : method_node) :
  let scanned := drop (start_line_of (position node)) (Py.splitlines java_code) in
  Forall (fun line => Py.contains [LBRACE] line = false) scanned ->
  started (scan_lines body_init scanned) = false
  /\ _get_method_body java_code node = [].
Proof.
  intros scanned H. unfold _get_method_body. fold scanned.
  by rewrite (scan_lines_not_started _ H).
Qed.

Lemma no_brace_no_body_witness :
  _get_method_body Sample.interface_one_method (Sample.node_at 2 3 []) = [].
Proof.
  apply (no_brace_no_body Sample.interface_one_method (Sample.node_at 2 3 [])).
  vm_compute. repeat constructor.
Defined.

(** C7, counterexample. In [Sample.closer_in_literal] the second line is
    read outside any comment and holds the two characters of a closer in
    a string literal. The line, whose brace delta is zero, is not kept
    whole: it is cut after the closer, the rest alone is kept and counted,
    the counter falls to zero and the body ends there. *)
Lemma closer_cuts_line_outside_comment :
  brace_delta Sample.closer_in_literal_line = 0%Z
  /\ process_line
       {| body_lines := [lit "void f() {"]; brace_count := 1;
          started := true; in_multiline_comment := false |}
       Sample.closer_in_literal_line
     = ({| body_lines := [lit "void f() {"; Sample.QUOTE ++ lit "; }"];
           brace_count := 0; started := true;
           in_multiline_comment := false |}, true)
  /\ _get_method_body Sample.closer_in_literal (Sample.node_at 1 1 [])
     = Sample.source [lit "void f() {"; Sample.QUOTE ++ lit "; }"].
Proof. vm_compute. done. Qed.

(** C7, amended. For every scanned body line that holds a closer and no
    opener, whatever the block-comment flag is before the line: the flag
    is cleared, the line is cut to the text after the first closer, and
    that text is what is kept, when it is not blank, and what is counted. *)
Theorem closer_cuts_line_whatever_the_flag (st : body_state) (line : str) (i : nat) :
  started st || Py.contains [LBRACE] line = true ->
  Py.find OPEN_COMMENT line = None ->
  Py.find CLOSE_COMMENT line = Some i ->
  process_line st line
  = let kept := keep_line (body_lines st) (brace_count st) (drop (i + 2) line) in
    ({| body_lines := kept.1; brace_count := kept.2; started := true;
        in_multiline_comment := false |}, (kept.2 =? 0)%Z).
Proof.
  intros Hs Ho Hc. rewrite process_line_unfold, Hs.
  unfold enter_comment. rewrite Ho. simpl.
  unfold exit_comment. rewrite Hc. done.
Qed.

Lemma closer_cuts_line_whatever_the_flag_witness :
  process_line {| body_lines := []; brace_count := 1; started := true;
                  in_multiline_comment := false |} (lit "a */ }")
  = ({| body_lines := [lit " }"]; brace_count := 0; started := true;
        in_multiline_comment := false |}, true).
Proof.
  exact (closer_cuts_line_whatever_the_flag
           {| body_lines := []; brace_count := 1; started := true;
              in_multiline_comment := false |} (lit "a */ }") 2
           eq_refl eq_refl eq_refl).
Defined.

(** ** The declaration scan *)

Section Declaration.
Variable lines : list str.
Variable declaration_str : str.
Implicit Types c : cursor.

(** The three ways an iteration entered within the text can go: the
    cursor wraps past the last line and the loop breaks; it wraps to the
    next line, then steps over its first character if it has one; or it
    steps over one character of the current line. *)
Lemma loop_body_cases c l0 :
  lines !! end_line c = Some l0 ->
  (current_char_index c < length declaration_str)%nat ->
  ((length l0 <= end_column c)%nat /\ (length lines <= S (end_line c))%nat
   /\ loop_body lines declaration_str c
      = Returned ({| end_line := S (end_line c); end_column := 0;
                     current_char_index := current_char_index c |}, true))
  \/ ((length l0 <= end_column c)%nat
      /\ exists l col idx,
           lines !! S (end_line c) = Some l
           /\ col = (if decide (l = []) then 0 else 1)%nat
           /\ loop_body lines declaration_str c
              = Returned ({| end_line := S (end_line c); end_column := col;
                             current_char_index := idx |}, false))
  \/ ((end_column c < length l0)%nat
      /\ exists idx,
           loop_body lines declaration_str c
           = Returned ({| end_line := end_line c;
                          end_column := S (end_column c);
                          current_char_index := idx |}, false)).
Proof.
  intros Hl0 Hidx. unfold loop_body. rewrite Hl0.
  destruct (declaration_str !! current_char_index c) as [d|] eqn:Hd.
  2:{ apply lookup_ge_None_1 in Hd. lia. }
  destruct (Nat.leb_spec (length l0) (end_column c)) as [Hwrap|Hstay]; simpl.
  - destruct (Nat.leb_spec (length lines) (S (end_line c))) as [Hend|Hin].
    + left. done.
    + right. left. split; [done|].
      destruct (lines !! S (end_line c)) as [l|] eqn:Hl.
      2:{ apply lookup_ge_None_1 in Hl. lia. }
      exists l. destruct l as [|ch l]; simpl.
      * by exists 0%nat, (current_char_index c).
      * destruct (ch =? d); by eexists 1%nat, _.
  - right. right. split; [done|].
    assert (end_line c < length lines)%nat as Hin
      by (apply lookup_lt_is_Some_1; by eexists).
    destruct (Nat.leb_spec (length lines) (end_line c)); [lia|].
    rewrite Hl0. destruct (Nat.ltb_spec (end_column c) (length l0)); [|lia].
    destruct (l0 !! end_column c) as [ch|] eqn:Hch.
    2:{ apply lookup_ge_None_1 in Hch. lia. }
    destruct (ch =? d); by eexists.
Qed.

Lemma remaining_unfold c l0 :
  lines !! end_line c = Some l0 ->
  remaining lines c
  = (length l0 + length (concat (drop (S (end_line c)) lines))
     + S (length (drop (S (end_line c)) lines))
     - min (end_column c) (length l0))%nat.
Proof.
  intros Hl0. unfold remaining. rewrite Hl0, (drop_S _ _ _ Hl0).
  simpl. rewrite length_app. lia.
Qed.

(** One iteration of the loop, entered under its guard, when it does not
    raise: the cursor does not move backward, it moves by at most one
    line, its column ends within its line, and unless the loop breaks the
    cursor stays in the text with less left to walk. *)
Lemma loop_body_forward c c' b :
  (current_char_index c < length declaration_str)%nat ->
  loop_body lines declaration_str c = Returned (c', b) ->
  cursor_le (end_line c) (end_column c) (end_line c') (end_column c')
  /\ (end_line c' <= S (end_line c))%nat
  /\ (end_line c' <= length lines)%nat
  /\ column_within lines c'
  /\ (b = false ->
      (end_line c' < length lines)%nat
      /\ (remaining lines c' < remaining lines c)%nat).
Proof.
  intros Hidx Hret.
  destruct (lines !! end_line c) as [l0|] eqn:Hl0.
  2:{ unfold loop_body in Hret. by rewrite Hl0 in Hret. }
  assert (end_line c < length lines)%nat as Hin
    by (apply lookup_lt_is_Some_1; by eexists).
  pose proof (remaining_unfold c l0 Hl0) as Hrem.
  destruct (loop_body_cases c l0 Hl0 Hidx)
    as [(Hw & Hend & Heq)|[(Hw & l & col & idx & Hl & Hcol & Heq)|(Hs & idx & Heq)]];
    rewrite Heq in Hret; injection Hret as <- <-; simpl.
  - split_and!; [left; lia|lia|lia| |done].
    intros l Hl. simpl in Hl. apply lookup_lt_Some in Hl. lia.
  - assert (S (end_line c) < length lines)%nat as Hin'
      by (apply lookup_lt_is_Some_1; by eexists).
    split_and!; [left; lia|lia|lia| |].
    + intros l' Hl'. simpl in *. rewrite Hl in Hl'. injection Hl' as <-.
      subst col. case_decide; simplify_eq; simpl; [lia|].
      destruct l; [done|]. simpl. lia.
    + intros _. split; [done|].
      rewrite Hrem.
      rewrite (remaining_unfold
                 {| end_line := S (end_line c); end_column := col;
                    current_char_index := idx |} l Hl).
      cbn [end_line end_column].
      rewrite (drop_S _ _ _ Hl), concat_cons, length_app, length_cons. lia.
  - split_and!; [right; lia|lia|lia| |].
    + intros l' Hl'. simpl in *. rewrite Hl0 in Hl'. injection Hl' as <-. lia.
    + intros _. split; [done|].
      rewrite Hrem.
      rewrite (remaining_unfold
                 {| end_line := end_line c; end_column := S (end_column c);
                    current_char_index := idx |} l0 Hl0).
      cbn [end_line end_column]. lia.
Qed.

(** Within the text an iteration under the guard never raises. *)
Lemma loop_body_returns c :
  (end_line c < length lines)%nat ->
  (current_char_index c < length declaration_str)%nat ->
  exists c' b, loop_body lines declaration_str c = Returned (c', b).
Proof.
  intros [l0 Hl0]%lookup_lt_is_Some_2 Hidx.
  destruct (loop_body_cases c l0 Hl0 Hidx)
    as [(_ & _ & Heq)|[(_ & l & col & idx & _ & _ & Heq)|(_ & idx & Heq)]];
    rewrite Heq; by eexists _, _.
Qed.

(** Started within the text, with fuel above what is left to walk, the
    loop returns. *)
Lemma while_loop_returns fuel c :
  (end_line c < length lines)%nat ->
  (remaining lines c < fuel)%nat ->
  exists c', while_loop fuel lines declaration_str c = Returned c'.
Proof.
  revert c. induction fuel as [|fuel IH]; intros c Hin Hfuel; [lia|].
  simpl. destruct (Nat.ltb_spec (current_char_index c) (length declaration_str))
    as [Hidx|_]; [|by eexists].
  destruct (loop_body_returns c Hin Hidx) as (c' & b & Heq). rewrite Heq.
  destruct b; [by eexists|].
  destruct (loop_body_forward c c' false Hidx Heq) as (_ & _ & _ & _ & Hnext).
  destruct (Hnext eq_refl) as [Hin' Hless]. apply IH; [done|lia].
Qed.

Lemma remaining_le_enough_fuel c : (remaining lines c < enough_fuel lines)%nat.
Proof.
  unfold remaining, enough_fuel.
  assert (length (concat (drop (end_line c) lines)) <= length (concat lines))%nat.
  { rewrite <- (take_drop (end_line c) lines) at 2.
    rewrite concat_app, length_app. lia. }
  rewrite length_drop. lia.
Qed.

(** A property of the cursor that every iteration preserves holds when
    the loop returns. *)
Lemma while_loop_invariant (P : cursor -> Prop) :
  (forall c c' b,
      P c -> (current_char_index c < length declaration_str)%nat ->
      loop_body lines declaration_str c = Returned (c', b) -> P c') ->
  forall fuel c c',
    P c -> while_loop fuel lines declaration_str c = Returned c' -> P c'.
Proof.
  intros Hstep fuel. induction fuel as [|fuel IH]; intros c c' HP; simpl.
  - destruct (Nat.ltb_spec (current_char_index c) (length declaration_str));
      [done|]. by intros [= <-].
  - destruct (Nat.ltb_spec (current_char_index c) (length declaration_str))
      as [Hidx|_]; [|by intros [= <-]].
    destruct (loop_body lines declaration_str c) as [[c1 b]| |] eqn:Heq;
      [|done|done].
    pose proof (Hstep c c1 b HP Hidx Heq) as HP1.
    destruct b; [by intros [= <-]|]. by apply IH.
Qed.

End Declaration.

(** ** The reconstruction of the declaration *)

Section Reconstruction.
Variable lines : list str.
Variables start_line start_column end_line end_column : nat.

Local Abbreviation piece :=
  (declaration_piece lines start_line start_column end_line end_column).

(** Strictly between the start line and the end line every line is taken
    whole. *)
Lemma pieces_between a n :
  (start_line < a)%nat -> (a + n <= end_line)%nat ->
  (end_line <= length lines)%nat ->
  concat (piece <$> seq a n) = take n (drop a lines).
Proof.
  intros Ha Hn Hend. revert a Ha Hn.
  induction n as [|n IH]; intros a Ha Hn; [done|].
  destruct (lookup_lt_is_Some_2 lines a) as [l Hl]; [lia|].
  cbn [seq fmap list_fmap concat]. rewrite IH by lia.
  rewrite (drop_S _ _ _ Hl). cbn [take]. unfold declaration_piece.
  destruct (Nat.eqb_spec a start_line); [lia|].
  destruct (Nat.eqb_spec a end_line); [lia|]. by rewrite Hl.
Qed.

(** The pieces, for a start line within the text: the tail of the start
    line, the whole lines strictly between start and end, and, when the
    end line is another line of the text, its head up to the end column. *)
Lemma declaration_lines_shape l0 :
  lines !! start_line = Some l0 ->
  (start_line <= end_line)%nat -> (end_line <= length lines)%nat ->
  (end_line <> start_line ->
   forall l, lines !! end_line = Some l -> (end_column <= length l)%nat) ->
  declaration_lines lines start_line start_column end_line end_column
  = drop start_column l0
    :: (take (end_line - start_line - 1) (drop (S start_line) lines)
        ++ if decide (end_line = start_line) then []
           else match lines !! end_line with
                | Some l => [take end_column l]
                | None => []
                end).
Proof.
  intros Hl0 Hle Hend Hcol. unfold declaration_lines.
  replace (S end_line - start_line)%nat with (S (end_line - start_line)) by lia.
  cbn [seq fmap list_fmap concat].
  assert (piece start_line = [drop start_column l0]) as ->.
  { unfold declaration_piece. by rewrite Nat.eqb_refl, Hl0. }
  cbn [app]. f_equal.
  destruct (end_line - start_line)%nat as [|d] eqn:Hd.
  - rewrite decide_True by lia. done.
  - rewrite decide_False by lia.
    rewrite seq_S, fmap_app, concat_app, pieces_between by lia.
    replace (S d - 1)%nat with d by lia. f_equal.
    replace (S start_line + d)%nat with end_line by lia.
    cbn [fmap list_fmap concat]. rewrite app_nil_r.
    unfold declaration_piece.
    destruct (Nat.eqb_spec end_line start_line); [lia|].
    rewrite Nat.eqb_refl.
    destruct (lines !! end_line) as [l|] eqn:Hl; [|done].
    specialize (Hcol ltac:(lia) l eq_refl).
    by destruct (Nat.leb_spec end_column (length l)); [|lia].
Qed.

(** Every piece after the first is a prefix of the source line at its
    place, and is that line unless it is the last piece. *)
Lemma later_pieces_follow_source rest :
  (start_line <= end_line)%nat -> (end_line <= length lines)%nat ->
  rest = take (end_line - start_line - 1) (drop (S start_line) lines)
         ++ (if decide (end_line = start_line) then []
             else match lines !! end_line with
                  | Some l => [take end_column l]
                  | None => []
                  end) ->
  forall j p, rest !! j = Some p ->
    exists l, lines !! (start_line + 1 + j)%nat = Some l
      /\ p `prefix_of` l
      /\ ((S j < length rest)%nat -> p = l).
Proof.
  intros Hle Hend -> j p Hp.
  set (mid := take (end_line - start_line - 1) (drop (S start_line) lines)) in *.
  assert (length mid = end_line - start_line - 1)%nat as Hmid.
  { unfold mid. rewrite length_take, length_drop. lia. }
  destruct (decide (j < length mid)%nat) as [Hj|Hj].
  - rewrite lookup_app_l in Hp by done. unfold mid in Hp.
    rewrite lookup_take_lt, lookup_drop in Hp by lia.
    exists p. replace (start_line + 1 + j)%nat with (S start_line + j)%nat by lia.
    done.
  - rewrite lookup_app_r in Hp by lia.
    case_decide as Hsame; [done|].
    destruct (lines !! end_line) as [l|] eqn:Hl; [|done].
    destruct (j - length mid)%nat eqn:Hj0; [|done].
    injection Hp as <-. exists l.
    replace (start_line + 1 + j)%nat with end_line by lia.
    split_and!; [done|apply prefix_take|].
    rewrite length_app. simpl. lia.
Qed.

End Reconstruction.

(** The [while] loop of the declaration scan, started within the text:
    it returns, at a cursor not before the start, on a line of the text or
    just past the last one, and in a column within its line unless it is
    still on the start line. *)
Lemma while_loop_end (lines : list str) (declaration_str : str)
  (start_line start_column : nat) :
  (start_line < length lines)%nat ->
  exists c,
    while_loop (enough_fuel lines) lines declaration_str
      {| end_line := start_line; end_column := start_column;
         current_char_index := 0 |} = Returned c
    /\ cursor_le start_line start_column (end_line c) (end_column c)
    /\ (end_line c <= length lines)%nat
    /\ (end_line c <> start_line -> column_within lines c).
Proof.
  intros Hin.
  set (c0 := {| end_line := start_line; end_column := start_column;
                current_char_index := 0 |}).
  destruct (while_loop_returns lines declaration_str (enough_fuel lines) c0)
    as [c Hc]; [done|apply remaining_le_enough_fuel|].
  exists c. split; [done|].
  apply (while_loop_invariant lines declaration_str
           (fun c => cursor_le start_line start_column (end_line c) (end_column c)
                     /\ (end_line c <= length lines)%nat
                     /\ (end_line c <> start_line -> column_within lines c)))
    with (fuel := enough_fuel lines) (c := c0); [| |done].
  - intros c1 c2 b (Hle & _ & _) Hidx Hstep.
    destruct (loop_body_forward lines declaration_str c1 c2 b Hidx Hstep)
      as (Hfw & _ & Hlen & Hcol & _).
    split_and!; [|done|done].
    unfold cursor_le in *. lia.
  - simpl. split_and!; [right; lia|lia|done].
Qed.

(** ** Claims on [_get_method_declaration] *)

(** Started at or past the end of the text, the loop raises at its first
    test unless there is nothing to match. *)
Lemma while_loop_past_end (lines : list str) (declaration_str : str)
  (fuel : nat) (c : cursor) :
  (length lines <= end_line c)%nat ->
  while_loop (S fuel) lines declaration_str c
  = if (current_char_index c <? length declaration_str)%nat
    then IndexError else Returned c.
Proof.
  intros Hout. simpl. destruct (_ <? _)%nat; [|done].
  unfold loop_body. by rewrite (lookup_ge_None_2 _ _ Hout).
Qed.

(** The fuel of the model never runs out: the method returns or raises. *)
Lemma get_method_declaration_fuel (java_code : str) (node : method_node) :
  _get_method_declaration java_code node <> OutOfFuel.
Proof.
  unfold _get_method_declaration.
  set (lines := Py.splitlines java_code).
  set (start_line := start_line_of (position node)).
  destruct (decide (start_line < length lines)%nat) as [Hin|Hout].
  - destruct (while_loop_end lines (Py.strip (rendered node)) start_line
                (start_column_of (position node)) Hin) as (c & -> & _). done.
  - unfold enough_fuel. rewrite while_loop_past_end by (simpl; lia).
    by destruct (_ <? _)%nat.
Qed.

(** It raises exactly when the start line is not a line of the text and
    the rendering is not blank. *)
Lemma get_method_declaration_raises (java_code : str) (node : method_node) :
  _get_method_declaration java_code node = IndexError
  <-> (length (Py.splitlines java_code) <= start_line_of (position node))%nat
      /\ Py.strip (rendered node) <> [].
Proof.
  unfold _get_method_declaration.
  set (lines := Py.splitlines java_code).
  set (start_line := start_line_of (position node)).
  destruct (decide (start_line < length lines)%nat) as [Hin|Hout].
  - destruct (while_loop_end lines (Py.strip (rendered node)) start_line
                (start_column_of (position node)) Hin) as (c & -> & _).
    split; [done|lia].
  - unfold enough_fuel. rewrite while_loop_past_end by (simpl; lia).
    simpl. destruct (Py.strip (rendered node)) as [|d s]; simpl.
    + split; [done|]. by intros [_ ?].
    + split; [|done]. intros _. split; [lia|done].
Qed.

(** When the scan ends on the start line, the declaration is the whole
    tail of that line, whatever the end column. *)
Lemma same_line_declaration_is_line_tail (lines : list str)
  (start_line start_column end_column : nat) (l0 : str) :
  lines !! start_line = Some l0 ->
  declaration_lines lines start_line start_column start_line end_column
  = [drop start_column l0].
Proof.
  intros Hl0. rewrite (declaration_lines_shape _ _ _ _ _ l0); try done.
  - rewrite decide_True by done. by rewrite Nat.sub_diag.
  - apply lookup_lt_Some in Hl0. lia.
Qed.

(** C5. The declaration is meant to end at the final matched column also
    when the match ends on the start line. The code does otherwise: for
    the method of [Sample.one_line_method], rendered as its fifteen
    characters up to the closing parenthesis, the scan ends on the start
    line at column 17 of its 29 characters, and the returned text is the
    tail of the line to its end, not the span up to column 17. *)
Theorem same_line_declaration_runs_to_line_end :
  while_loop (enough_fuel Sample.one_line_method_lines)
    Sample.one_line_method_lines (lit "public void f()")
    {| end_line := 1; end_column := 2; current_char_index := 0 |}
  = Returned {| end_line := 1; end_column := 17; current_char_index := 15 |}
  /\ Sample.one_line_method_lines !! 1%nat
     = Some (lit "  public void f() { return; }")
  /\ _get_method_declaration Sample.one_line_method
       (Sample.node_at 2 3 (lit "public void f()"))
     = Returned (lit "public void f() { return; }")
  /\ take (17 - 2) (drop 2 (lit "  public void f() { return; }"))
     = lit "public void f()".
Proof. vm_compute. done. Qed.

(** C6. Neither method is meant to raise. [_get_method_body] cannot, but
    [_get_method_declaration] does when the start line is at or past the
    end of the text and the rendering is not blank: the first test of the
    loop indexes the lines at the start line before any bound is checked.
    So it is for a position on line 2 of a one-line text, and for an
    absent position with the empty text. *)
Theorem start_past_end_raises_index_error :
  _get_method_declaration (lit "class A {}")
    (Sample.node_at 2 1 (lit "MethodDeclaration")) = IndexError
  /\ _get_method_declaration []
       {| position := None; rendered := lit "MethodDeclaration" |} = IndexError
  /\ _get_method_body (lit "class A {}")
       (Sample.node_at 2 1 (lit "MethodDeclaration")) = [].
Proof. vm_compute. done. Qed.

(** C9. For every source text and method node whose start line is a line
    of the text, [_get_method_declaration] returns, and what it returns is
    the join of pieces that follow the source line by line: the first is
    the start line from the start column on; every later piece is a prefix
    of the source line at its place, and is that whole line unless it is
    the last piece. The end cursor ends at or after the start position,
    and no iteration of the scan moves it backward. *)
Theorem declaration_follows_source_lines (java_code : str) (node : method_node) :
  let lines := Py.splitlines java_code in
  let start_line := start_line_of (position node) in
  let start_column := start_column_of (position node) in
  let declaration_str := Py.strip (rendered node) in
  (start_line < length lines)%nat ->
  (exists c l0 rest,
      while_loop (enough_fuel lines) lines declaration_str
        {| end_line := start_line; end_column := start_column;
           current_char_index := 0 |} = Returned c
      /\ cursor_le start_line start_column (end_line c) (end_column c)
      /\ lines !! start_line = Some l0
      /\ _get_method_declaration java_code node
         = Returned (Py.join NEWLINE (drop start_column l0 :: rest))
      /\ forall j p, rest !! j = Some p ->
           exists l, lines !! (start_line + 1 + j)%nat = Some l
             /\ p `prefix_of` l
             /\ ((S j < length rest)%nat -> p = l))
  /\ (forall c c' b,
        (current_char_index c < length declaration_str)%nat ->
        loop_body lines declaration_str c = Returned (c', b) ->
        cursor_le (end_line c) (end_column c) (end_line c') (end_column c')).
Proof.
  intros lines start_line start_column declaration_str Hin. split.
  - destruct (while_loop_end lines declaration_str start_line start_column Hin)
      as (c & Hc & Hle & Hlen & Hcol).
    destruct (lookup_lt_is_Some_2 lines start_line Hin) as [l0 Hl0].
    assert (start_line <= end_line c)%nat as Hge
      by (unfold cursor_le in Hle; lia).
    pose proof (declaration_lines_shape lines start_line start_column
                  (end_line c) (end_column c) l0 Hl0 Hge Hlen) as Hshape.
    eexists c, l0, _. split_and!; [done|done|done| |].
    + unfold _get_method_declaration.
      fold lines start_line start_column declaration_str.
      rewrite Hc, Hshape; [done|]. intros Hne l Hl. by apply Hcol.
    + by apply (later_pieces_follow_source lines start_line (end_line c)
                  (end_column c)).
  - intros c c' b Hidx Hstep.
    by destruct (loop_body_forward lines declaration_str c c' b Hidx Hstep)
      as (Hfw & _).
Qed.

Lemma declaration_follows_source_lines_witness :
  exists rest,
    _get_method_declaration Sample.two_line_declaration
      (Sample.node_at 2 3 (lit "public void f(int a, int b)"))
    = Returned (Py.join NEWLINE (lit "public void f(int a," :: rest)).
Proof.
  destruct (declaration_follows_source_lines Sample.two_line_declaration
              (Sample.node_at 2 3 (lit "public void f(int a, int b)")))
    as [(c & l0 & rest & _ & _ & Hl0 & Hret & _) _].
  - vm_compute. lia.
  - exists rest. injection Hl0 as <-. exact Hret.
Defined.

(** ** Claims on the writers *)

Lemma illegal_character_spec (c : N) :
  illegal_character c = stripped_by_spec c.
Proof.
  unfold illegal_character, stripped_by_spec, normal_whitespace.
  repeat match goal with
         | |- context [?a <=? ?b] => destruct (N.leb_spec a b)
         | |- context [?a =? ?b] => destruct (N.eqb_spec a b)
         end; simpl; try reflexivity; lia.
Qed.

Lemma excel_rows_contents (row : nat) (results : list str) :
  (excel_rows row results).*2 = remove_illegal_characters <$> results.
Proof.
  revert row. induction results as [|content rest IH]; intros row; [done|].
  simpl. by rewrite IH.
Qed.

(** C8. The rows of the CSV output and the cells of the spreadsheet hold,
    after the same header, the same texts: each block with exactly the
    characters removed that are control characters from 00 to 1F other
    than tab, line feed and carriage return, or are 7F, the other
    characters kept as they are and in their order. *)
Theorem writers_strip_control_characters (results : list str) :
  write_to_csv results
  = HEADER :: (List.filter (fun c => negb (stripped_by_spec c)) <$> results)
  /\ (write_to_excel results).*2 = write_to_csv results
  /\ (write_to_excel results).*1 = seq 1 (S (length results)).
Proof.
  split_and!.
  - unfold write_to_csv. f_equal. apply list_fmap_ext. intros _ s _.
    unfold remove_illegal_characters. apply List.filter_ext.
    intros c. by rewrite illegal_character_spec.
  - unfold write_to_excel, write_to_csv. simpl. by rewrite excel_rows_contents.
  - unfold write_to_excel. simpl. f_equal. generalize 2%nat.
    induction results as [|content rest IH]; intros row; [done|].
    simpl. by rewrite IH.
Qed.

Lemma remove_illegal_characters_id (s : str) :
  existsb illegal_character s = false -> remove_illegal_characters s = s.
Proof.
  unfold remove_illegal_characters.
  induction s as [|c s IH]; [done|]. simpl.
  intros [-> Hs]%orb_false_iff. simpl. by rewrite IH.
Qed.

Lemma remove_illegal_characters_clean (s : str) :
  existsb illegal_character (remove_illegal_characters s) = false.
Proof.
  unfold remove_illegal_characters.
  induction s as [|c s IH]; [done|]. simpl.
  destruct (illegal_character c) eqn:Hc; simpl; [done|]. by rewrite Hc.
Qed.

(** C10. [remove_illegal_characters] is idempotent, and it returns its
    argument unchanged when the argument holds none of the stripped
    characters. *)
Theorem remove_illegal_characters_idempotent (s : str) :
  remove_illegal_characters (remove_illegal_characters s)
  = remove_illegal_characters s
  /\ (existsb illegal_character s = false -> remove_illegal_characters s = s).
Proof.
  split; [|apply remove_illegal_characters_id].
  apply remove_illegal_characters_id, remove_illegal_characters_clean.
Qed.

Lemma remove_illegal_characters_idempotent_witness :
  remove_illegal_characters (lit "int x;") = lit "int x;".
Proof.
  apply (remove_illegal_characters_idempotent (lit "int x;")). reflexivity.
Defined.

(** * The callers *)

(** ** [extract_methods] *)

Section Extract.
Implicit Types (path : list path_element)
  (entries : list (list path_element * MethodDeclaration)).

Lemma find_first {A} (f : A -> bool) (l1 l2 : list A) (x : A) :
  Forall (fun y => f y = false) l1 -> f x = true ->
  List.find f (l1 ++ x :: l2) = Some x.
Proof.
  induction 1 as [|y l1 Hy _ IH]; intros Hx; simpl.
  - by rewrite Hx.
  - rewrite Hy. by apply IH.
Qed.

Lemma find_none {A} (f : A -> bool) (l : list A) :
  List.find f l = None <-> Forall (fun y => f y = false) l.
Proof.
  induction l as [|y l IH]; simpl; [by split|].
  destruct (f y) eqn:Hy.
  - split; [done|]. intros [? _]%Forall_cons. congruence.
  - rewrite IH. split; [by constructor|by intros [_ ?]%Forall_cons].
Qed.

Lemma find_type_node_is_type path t :
  find_type_node path = Some t -> is_type_declaration t = true /\ t ∈ path.
Proof.
  unfold find_type_node. intros H. apply List.find_some in H as [Hin Ht].
  split; [done|]. apply list_elem_of_In in Hin. by apply elem_of_reverse.
Qed.

(** The record of one method that has a type and whose declaration scan
    returns; the warning or the exception otherwise. *)
Lemma extract_loop_step java_code pkg path node entries methods log :
  extract_loop java_code pkg ((path, node) :: entries) methods log
  = let log1 := log ++ [Print (PACKAGE_LABEL ++ lit " " ++ package_name_of pkg)] in
    match find_type_node path with
    | Some t =>
        match _get_method_declaration java_code (node_base node) with
        | Returned d =>
            extract_loop java_code pkg entries
              (methods ++ [make_method_info (package_name_of pkg) t node
                             (_get_method_body java_code (node_base node)) d])
              log1
        | IndexError => (log1, IndexError)
        | OutOfFuel => (log1, OutOfFuel)
        end
    | None =>
        extract_loop java_code pkg entries methods
          (log1 ++ [Warning NO_TYPE_WARNING])
    end.
Proof. done. Qed.



(** Every record the loop adds is named package, type and method, joined
    by dots, and its type is a class or interface of its method's path. *)
Lemma extract_loop_names java_code pkg entries methods log log' result :
  extract_loop java_code pkg entries methods log = (log', Returned result) ->
  exists new, result = methods ++ new
    /\ Forall (fun m => full_declaration_name m
                        = package_name_of pkg ++ DOT ++ class_name m
                          ++ DOT ++ method_name m) new
    /\ (length new <= length entries)%nat.
Proof.
  revert methods log. induction entries as [|[path node] entries IH];
    intros methods log.
  - simpl. intros [= <- <-]. exists []. by rewrite app_nil_r.
  - rewrite extract_loop_step. cbv zeta.
    destruct (find_type_node path) as [t|].
    + destruct (_get_method_declaration _ _) as [d| |]; [|done|done].
      intros (new & -> & Hnew & Hlen)%IH.
      eexists (_ :: new). split_and!.
      * by rewrite <- app_assoc.
      * by constructor.
      * simpl. lia.
    + intros (new & -> & Hnew & Hlen)%IH.
      exists new. split_and!; [done|done|simpl; lia].
Qed.

(** The loop raises exactly when the declaration scan of some method with
    a type does, and it never runs out of fuel. *)
Lemma extract_loop_raises java_code pkg entries methods log :
  ((extract_loop java_code pkg entries methods log).2 = IndexError
   <-> Exists (fun e => has_type e = true /\ out_of_text java_code e) entries)
  /\ (extract_loop java_code pkg entries methods log).2 <> OutOfFuel.
Proof.
  revert methods log. induction entries as [|[path node] entries IH];
    intros methods log.
  - simpl. split; [|done]. split; [done|]. by intros ?%Exists_nil.
  - rewrite extract_loop_step. cbv zeta. rewrite Exists_cons.
    unfold has_type at 1. unfold out_of_text at 1. simpl.
    destruct (find_type_node path) as [t|].
    + pose proof (get_method_declaration_raises java_code (node_base node)) as Hr.
      pose proof (get_method_declaration_fuel java_code (node_base node)) as Hf.
      destruct (_get_method_declaration _ _) as [d| |]; [| |done].
      * destruct (IH (methods ++ [make_method_info (package_name_of pkg) t node
                       (_get_method_body java_code (node_base node)) d])
                    (log ++ [Print (PACKAGE_LABEL ++ lit " " ++ package_name_of pkg)]))
          as [IH1 IH2].
        split; [|done]. rewrite IH1. split; [by right|].
        intros [[_ Hout]|?]; [|done]. by apply Hr in Hout.
      * simpl. split; [|done]. split; [|done]. intros _. left.
        split; [done|]. by apply Hr.
    + destruct (IH methods
                  ((log ++ [Print (PACKAGE_LABEL ++ lit " " ++ package_name_of pkg)])
                   ++ [Warning NO_TYPE_WARNING])) as [IH1 IH2].
      split; [|done]. rewrite IH1. split; [by right|].
      by intros [[? _]|?].
Qed.

End Extract.

(** ** [parse_main] *)

(** Induction on a directory, the property assumed of its
    subdirectories. *)
Lemma directory_induction (P : directory -> Prop) :
  (forall dirs files, Forall (fun p => P p.2) dirs -> P (Directory dirs files)) ->
  forall d, P d.
Proof.
  intros Hstep. fix IH 1. intros [dirs files]. apply Hstep.
  induction dirs as [|[name sub] dirs IHdirs]; constructor; [apply IH|done].
Qed.

Section WalkProofs.
Variable parse : str -> CompilationUnit + str.
Variables exclude_dirs exclude_files : list str.

Local Abbreviation collect' := (collect parse).
Local Abbreviation files_read' := (files_read exclude_dirs exclude_files).

Lemma collect_app reads1 reads2 results log :
  collect' (reads1 ++ reads2) results log
  = match collect' reads1 results log with
    | (log', Finished results') => collect' reads2 results' log'
    | (log', RaisedIndexError) => (log', RaisedIndexError)
    | (log', RaisedReadError e) => (log', RaisedReadError e)
    | (log', RaisedWriteError) => (log', RaisedWriteError)
    | (log', FuelOut) => (log', FuelOut)
    end.
Proof.
  revert results log. induction reads1 as [|[t|e] reads1 IH];
    intros results log; [done| |done].
  cbn [app collect].
  destruct (extract_methods parse t None) as [log' [methods| |]];
    [|done|done].
  destruct (append_methods methods results (log ++ log')) as [r l]. apply IH.
Qed.

(** The files of one directory are gone through as the reads of its
    eligible files. *)
Lemma visit_files_collect files results log :
  visit_files parse exclude_files files results log
  = collect' (List.filter (eligible exclude_files) files).*2 results log.
Proof.
  revert results log. induction files as [|[file content] files IH];
    intros results log; [done|].
  cbn [visit_files List.filter]. unfold eligible at 1. cbn [fst snd].
  destruct (PyMore.endswith JAVA_EXTENSION file
            && negb (bool_decide (file ∈ exclude_files))); [|apply IH].
  cbn [fmap list_fmap collect snd]. destruct content as [text|e]; [|done].
  destruct (extract_methods parse text None) as [log' [methods| |]];
    [|done|done].
  destruct (append_methods methods results (log ++ log')) as [r l]. apply IH.
Qed.

(** The walk of a directory goes through the reads of its eligible files,
    at any depth, outside the excluded directories, in the order of the
    walk. *)
Lemma walk_collect d results log :
  walk parse exclude_dirs exclude_files d results log
  = collect' (files_read' d) results log.
Proof.
  revert results log. induction d as [dirs files IHdirs] using directory_induction.
  intros results log. cbn [walk files_read].
  rewrite collect_app, visit_files_collect.
  destruct (collect' _ results log) as [log' [results'| | | |]];
    [|done|done|done|done].
  clear results log. revert results' log'.
  induction IHdirs as [|[name sub] dirs Hsub _ IH]; intros results log; [done|].
  cbn [fst snd] in Hsub. cbn [walk_dirs fmap list_fmap concat fst snd].
  destruct (bool_decide (name ∈ exclude_dirs)); [apply IH|].
  rewrite collect_app, <- Hsub.
  destruct (walk parse exclude_dirs exclude_files sub results log)
    as [log' [results'| | | |]]; [apply IH|done|done|done|done].
Qed.

Lemma append_methods_results methods results log :
  (append_methods methods results log).1
  = results ++ (format_content <$> methods).
Proof.
  revert results log. induction methods as [|m methods IH]; intros results log.
  - simpl. by rewrite app_nil_r.
  - cbn [append_methods]. rewrite IH. cbn [fmap list_fmap].
    by rewrite <- app_assoc.
Qed.

Lemma extract_methods_fuel java_code tree :
  (extract_methods parse java_code tree).2 <> OutOfFuel.
Proof.
  unfold extract_methods. destruct tree as [t|].
  - apply extract_loop_raises.
  - destruct (parse java_code) as [t|e]; [apply extract_loop_raises|done].
Qed.


(** How the run over the reads ends. It finishes only when every read
    gives a text whose extraction returns, with the blocks of these texts
    in order; when it raises, what raises is the first read or extraction
    that does. *)
Lemma collect_ends reads results log :
  ((collect' reads results log).2 <> FuelOut
   /\ (collect' reads results log).2 <> RaisedWriteError)
  /\ (forall r, (collect' reads results log).2 = Finished r ->
        Forall (quiet parse) reads
        /\ r = results ++ concat (blocks_of parse <$> omap text_of reads))
  /\ ((collect' reads results log).2 = RaisedIndexError ->
      exists before t after,
        reads = before ++ ReadText t :: after
        /\ Forall (quiet parse) before /\ extraction_raises parse t)
  /\ (forall e, (collect' reads results log).2 = RaisedReadError e ->
        exists before after,
          reads = before ++ ReadRaises e :: after
          /\ Forall (quiet parse) before).
Proof.
  revert results log. induction reads as [|[t|e0] reads IH]; intros results log.
  - cbn [collect snd]. split; [done|]. split_and!; [|done|done].
    intros r [= <-]. split; [constructor|]. by rewrite app_nil_r.
  - cbn [collect].
    pose proof (extract_methods_fuel t None) as Hfuel.
    destruct (extract_methods parse t None) as [log' [methods| |]] eqn:Hex;
      cbn [snd] in *; [| |done].
    + assert (quiet parse (ReadText t)) as Hquiet.
      { exists t. split; [done|]. by rewrite Hex. }
      pose proof (append_methods_results methods results (log ++ log')) as Hr.
      destruct (append_methods methods results (log ++ log')) as [r l].
      simpl in Hr. subst r.
      destruct (IH (results ++ (format_content <$> methods)) l)
        as (IH1 & IH2 & IH3 & IH4).
      split; [done|]. split_and!.
      * intros r Hret. destruct (IH2 r Hret) as [Hall ->].
        split; [by constructor|]. rewrite <- app_assoc. f_equal.
        cbn [omap list_omap text_of fmap list_fmap concat].
        unfold blocks_of at 2. by rewrite Hex.
      * intros (before & t' & after & -> & Hb & Ht')%IH3.
        exists (ReadText t :: before), t', after. split_and!; [done| |done].
        by constructor.
      * intros e (before & after & -> & Hb)%IH4.
        exists (ReadText t :: before), after. split; [done|]. by constructor.
    + split; [done|]. split_and!; [done| |done].
      intros _. exists [], t, reads. split_and!; [done|constructor|].
      unfold extraction_raises. by rewrite Hex.
  - cbn [collect snd]. split; [done|]. split_and!; [done|done|].
    intros e [= <-]. exists [], reads. split; [done|constructor].
Qed.




(** The reads of a directory do not change when a subdirectory named in
    [exclude_dirs] is removed, with all that lies below it. *)
Lemma files_read_excluded_dir pre name sub post files :
  name ∈ exclude_dirs ->
  files_read' (Directory (pre ++ (name, sub) :: post) files)
  = files_read' (Directory (pre ++ post) files).
Proof.
  intros Hex. cbn [files_read]. f_equal.
  rewrite !fmap_app, !concat_app. f_equal.
  cbn [fmap list_fmap concat fst]. by rewrite bool_decide_eq_true_2.
Qed.

Lemma files_read_ineligible_file dirs pre file post :
  eligible exclude_files file = false ->
  files_read' (Directory dirs (pre ++ file :: post))
  = files_read' (Directory dirs (pre ++ post)).
Proof.
  intros Hex. cbn [files_read]. f_equal.
  rewrite !List.filter_app. cbn [List.filter]. by rewrite Hex.
Qed.

End WalkProofs.

(** ** Properties of [extract_methods] *)

(** The tree the extraction works on: the field of the extractor, or what
    the parser gives when the field is empty. *)
Lemma extract_methods_tree parse java_code tree t :
  tree = Some t \/ (tree = None /\ parse java_code = inl t) ->
  extract_methods parse java_code tree
  = extract_loop java_code (package t) (filter_MethodDeclaration t) [] [].
Proof.
  unfold extract_methods. intros [->|[-> Hp]]; [done|]. by rewrite Hp.
Qed.

(** X1. The enclosing type of a method is the nearest class or interface
    declaration on its path: the last one, whatever comes before it; and
    no type is found exactly when the path holds neither class nor
    interface. *)
Theorem enclosing_type_is_nearest (path pre post : list path_element)
  (t : path_element) :
  (is_type_declaration t = true ->
   Forall (fun e => is_type_declaration e = false) post ->
   find_type_node (pre ++ t :: post) = Some t)
  /\ (find_type_node path = None
      <-> Forall (fun e => is_type_declaration e = false) path).
Proof.
  split.
  - intros Ht Hpost. unfold find_type_node.
    rewrite reverse_app, reverse_cons, <- app_assoc. simpl.
    apply find_first; [|done]. by apply Forall_reverse.
  - unfold find_type_node. rewrite find_none. apply Forall_reverse.
Qed.

Lemma enclosing_type_is_nearest_witness :
  find_type_node Demo.nested = Some (ClassDeclaration (lit "Inner") None).
Proof.
  apply (enclosing_type_is_nearest []
           [OtherElement; ClassDeclaration (lit "Outer") (Some (lit "outer"));
            OtherElement]
           [OtherElement] (ClassDeclaration (lit "Inner") None)).
  - reflexivity.
  - repeat constructor.
Defined.



(** X3. Every record the extraction returns is named by the package, the
    name of its type and the name of its method, joined by dots, the
    package being [default] when the tree declares none; and there are no
    more records than methods in the tree. *)
Theorem extract_methods_full_names
  (parse : str -> CompilationUnit + str) (java_code : str)
  (tree : option CompilationUnit) (t : CompilationUnit)
  (log : list event) (methods : list method_info) :
  tree = Some t \/ (tree = None /\ parse java_code = inl t) ->
  extract_methods parse java_code tree = (log, Returned methods) ->
  Forall (fun m => full_declaration_name m
                   = match package t with
                     | Some name => name
                     | None => lit "default"
                     end ++ lit "." ++ class_name m ++ lit "." ++ method_name m)
    methods
  /\ (length methods <= length (filter_MethodDeclaration t))%nat.
Proof.
  intros Htree. rewrite (extract_methods_tree _ _ _ t Htree).
  intros (new & -> & Hnames & Hlen)%extract_loop_names. done.
Qed.

Lemma extract_methods_full_names_witness :
  Forall (fun m => full_declaration_name m
                   = lit "default" ++ lit "." ++ class_name m
                     ++ lit "." ++ method_name m)
    (match (extract_methods Demo.parse Sample.interface_two_methods None).2 with
     | Returned methods => methods
     | _ => []
     end).
Proof.
  destruct (extract_methods Demo.parse Sample.interface_two_methods None)
    as [log [methods| |]] eqn:Heq; [|constructor|constructor].
  apply (extract_methods_full_names Demo.parse Sample.interface_two_methods
           None Demo.tree log methods).
  - right. split; reflexivity.
  - exact Heq.
Defined.



(** ** Properties of [parse_main] *)

Lemma walk_ends parse exclude_dirs exclude_files d results log :
  let reads := files_read exclude_dirs exclude_files d in
  let o := (walk parse exclude_dirs exclude_files d results log).2 in
  (o <> FuelOut /\ o <> RaisedWriteError)
  /\ (forall r, o = Finished r ->
        Forall (quiet parse) reads
        /\ r = results ++ concat (blocks_of parse <$> omap text_of reads))
  /\ (o = RaisedIndexError ->
      exists before t after,
        reads = before ++ ReadText t :: after
        /\ Forall (quiet parse) before /\ extraction_raises parse t)
  /\ (forall e, o = RaisedReadError e ->
        exists before after,
          reads = before ++ ReadRaises e :: after
          /\ Forall (quiet parse) before).
Proof. cbv zeta. rewrite walk_collect. apply collect_ends. Qed.


(** X5. When [parse_main] returns, what it has written is determined by
    the texts it read: the blocks of the methods of each eligible file,
    the files of a directory before those of its subdirectories, the
    excluded directories left out, are written under the header to the
    spreadsheet or the CSV file named after the output file; for any other
    format nothing is written. *)
Theorem parse_main_writes_blocks_in_walk_order
  (parse : str -> CompilationUnit + str) (exclude_dirs exclude_files : list str)
  (writable : str -> bool)
  (d : directory) (output_file output_format : str)
  (log : list event) (w : written) :
  parse_main parse exclude_dirs exclude_files writable (Some d)
    output_file output_format
  = (log, Finished w) ->
  let blocks :=
    concat (blocks_of parse <$> texts_read exclude_dirs exclude_files d) in
  w = if bool_decide (output_format = lit "excel") then
        WroteExcel (output_file ++ lit ".xlsx") (write_to_excel blocks)
      else if bool_decide (output_format = lit "csv") then
        WroteCsv (output_file ++ lit ".csv") (write_to_csv blocks)
      else WroteNothing.
Proof.
  intros Heq. cbv zeta. unfold parse_main in Heq.
  destruct (walk_ends parse exclude_dirs exclude_files d [] [])
    as (_ & Hret & _).
  destruct (walk parse exclude_dirs exclude_files d [] [])
    as [log' [results| | | |]]; [|done|done|done|done].
  destruct (Hret results eq_refl) as [_ ->]. cbv zeta in Heq.
  repeat case_bool_decide;
    repeat match type of Heq with
           | context [writable ?p] => destruct (writable p)
           end;
    try done; by injection Heq as _ <-.
Qed.

Lemma parse_main_writes_blocks_in_walk_order_witness :
  exists log,
    parse_main Demo.parse Demo.exclude_dirs Demo.exclude_files Demo.writable
      (Some Demo.project) (lit "out") (lit "csv")
    = (log,
       Finished
         (WroteCsv (lit "out.csv")
            (write_to_csv (blocks_of Demo.parse Sample.interface_two_methods)))).
Proof.
  destruct (parse_main Demo.parse Demo.exclude_dirs Demo.exclude_files
              Demo.writable (Some Demo.project) (lit "out") (lit "csv"))
    as [log [w| | | |]] eqn:Heq;
    [|by vm_compute in Heq|by vm_compute in Heq|by vm_compute in Heq
     |by vm_compute in Heq].
  exists log. f_equal. f_equal.
  apply (parse_main_writes_blocks_in_walk_order _ _ _ _ _ _ _ _ _ Heq).
Defined.



(** X7. A subdirectory whose name is in [exclude_dirs] is never visited:
    with everything below it, it can be removed from its parent without
    any change in what the walk prints, returns or raises. *)
Theorem excluded_directory_never_visited
  (parse : str -> CompilationUnit + str) (exclude_dirs exclude_files : list str)
  (pre post : list (str * directory)) (name : str) (sub : directory)
  (files : list (str * file_read)) (results : list str) (log : list event) :
  name ∈ exclude_dirs ->
  walk parse exclude_dirs exclude_files
    (Directory (pre ++ (name, sub) :: post) files) results log
  = walk parse exclude_dirs exclude_files
      (Directory (pre ++ post) files) results log.
Proof.
  intros Hex. rewrite !walk_collect. by rewrite files_read_excluded_dir.
Qed.

Lemma excluded_directory_never_visited_witness :
  walk Demo.parse Demo.exclude_dirs Demo.exclude_files Demo.project [] []
  = walk Demo.parse Demo.exclude_dirs Demo.exclude_files
      (Directory [(lit "src", Demo.src_dir)]
         [(lit "package-info.java", ReadText Sample.interface_two_methods)])
      [] [].
Proof.
  apply (excluded_directory_never_visited Demo.parse Demo.exclude_dirs
           Demo.exclude_files [] [(lit "src", Demo.src_dir)] (lit "test")
           Demo.test_dir).
  vm_compute. apply list_elem_of_further, list_elem_of_here.
Defined.

(** X8. A file whose name does not end in the Java extension, or is in
    [exclude_files], is never read: it can be removed from its directory
    without any change in what the walk prints, returns or raises. *)
Theorem ineligible_file_never_read
  (parse : str -> CompilationUnit + str) (exclude_dirs exclude_files : list str)
  (dirs : list (str * directory)) (pre post : list (str * file_read))
  (file : str) (content : file_read) (results : list str) (log : list event) :
  PyMore.endswith JAVA_EXTENSION file = false \/ file ∈ exclude_files ->
  walk parse exclude_dirs exclude_files
    (Directory dirs (pre ++ (file, content) :: post)) results log
  = walk parse exclude_dirs exclude_files
      (Directory dirs (pre ++ post)) results log.
Proof.
  intros Hno. rewrite !walk_collect.
  rewrite (files_read_ineligible_file _ _ dirs pre (file, content) post); [done|].
  unfold eligible. simpl. destruct Hno as [->|Hin]; [done|].
  rewrite (bool_decide_eq_true_2 _ Hin). apply andb_false_r.
Qed.

Lemma ineligible_file_never_read_witness :
  walk Demo.parse Demo.exclude_dirs Demo.exclude_files Demo.src_dir [] []
  = walk Demo.parse Demo.exclude_dirs Demo.exclude_files
      (Directory []
         [(lit "Baz.java", ReadText Sample.interface_two_methods);
          (lit "Broken.java", ReadText (lit "class {"))]) [] [].
Proof.
  apply (ineligible_file_never_read Demo.parse Demo.exclude_dirs
           Demo.exclude_files []
           [(lit "Baz.java", ReadText Sample.interface_two_methods)]
           [(lit "Broken.java", ReadText (lit "class {"))]
           (lit "notes.txt") (ReadText (lit "to do"))).
  left. reflexivity.
Defined.



Lemma write_to_csv_clean (results : list str) : Forall clean (write_to_csv results).
Proof.
  unfold write_to_csv. constructor; [done|].
  apply Forall_fmap, Forall_forall. intros s _.
  apply remove_illegal_characters_clean.
Qed.

Lemma excel_rows_clean (row : nat) (results : list str) :
  Forall clean (excel_rows row results).*2.
Proof.
  rewrite excel_rows_contents. apply Forall_fmap, Forall_forall. intros s _.
  apply remove_illegal_characters_clean.
Qed.

(** X10. Whatever the files hold, no row of the CSV output and no cell of
    the spreadsheet that [parse_main] writes holds a character of the
    stripped class. *)
Theorem parse_main_output_clean
  (parse : str -> CompilationUnit + str) (exclude_dirs exclude_files : list str)
  (writable : str -> bool)
  (root : option directory) (output_file output_format : str)
  (log : list event) (w : written) :
  parse_main parse exclude_dirs exclude_files writable root
    output_file output_format
  = (log, Finished w) ->
  match w with
  | WroteExcel _ cells => Forall clean cells.*2
  | WroteCsv _ rows => Forall clean rows
  | WroteNothing => True
  end.
Proof.
  unfold parse_main.
  destruct (match root with Some d => _ | None => _ end)
    as [log' [results| | | |]]; [|done|done|done|done].
  cbv zeta. intros Heq.
  repeat case_bool_decide;
    repeat match type of Heq with
           | context [writable ?p] => destruct (writable p)
           end;
    try done; injection Heq as _ <-; [| |done].
  - unfold write_to_excel. cbn [fmap list_fmap snd].
    constructor; [done|]. apply excel_rows_clean.
  - apply write_to_csv_clean.
Qed.

Lemma parse_main_output_clean_witness :
  match (parse_main Demo.parse Demo.exclude_dirs Demo.exclude_files
           Demo.writable (Some Demo.project) (lit "out") (lit "csv")).2 with
  | Finished (WroteCsv _ rows) => Forall clean rows
  | _ => True
  end.
Proof.
  destruct (parse_main Demo.parse Demo.exclude_dirs Demo.exclude_files
              Demo.writable (Some Demo.project) (lit "out") (lit "csv"))
    as [log [w| | | |]] eqn:Heq; [|done|done|done|done].
  pose proof (parse_main_output_clean _ _ _ _ _ _ _ _ _ Heq) as H.
  simpl. by destruct w.
Defined.

(** ** [convert_xlsx_to_csv] *)

Lemma startswith_refl (s : str) : Py.startswith s s = true.
Proof. induction s as [|c s IH]; [done|]. simpl. by rewrite N.eqb_refl. Qed.

Lemma startswith_app (p s x : str) :
  Py.startswith p s = true -> Py.startswith p (s ++ x) = true.
Proof.
  revert s. induction p as [|a p IH]; intros s; [done|].
  destruct s as [|b s]; [done|]. simpl.
  intros [-> H]%andb_true_iff. by apply IH.
Qed.

Lemma startswith_app_within (p s x : str) :
  (length p <= length s)%nat ->
  Py.startswith p (s ++ x) = Py.startswith p s.
Proof.
  revert s. induction p as [|a p IH]; intros s Hlen; [done|].
  destruct s as [|b s]; [simpl in Hlen; lia|]. simpl in *.
  rewrite IH by lia. done.
Qed.

Lemma replace_from_skip_all (old new : str) (skip : nat) (s : str) :
  (length s <= skip)%nat -> PyMore.replace_from old new skip s = [].
Proof.
  revert skip. induction s as [|c s IH]; intros skip Hlen; [done|].
  destruct skip as [|k]; [simpl in Hlen; lia|]. simpl in *. apply IH. lia.
Qed.

Lemma replace_from_self (old new : str) :
  old <> [] -> PyMore.replace_from old new 0 old = new.
Proof.
  destruct old as [|o old']; [done|]. intros _.
  cbn [PyMore.replace_from]. rewrite startswith_refl.
  rewrite replace_from_skip_all by (simpl; lia). apply app_nil_r.
Qed.

(** A text that ends in a border-free [old]: the final occurrence is
    replaced, after the replacements in what precedes it. *)
Lemma replace_from_app_old (old new : str) (skip : nat) (s : str) :
  old <> [] -> border_free old -> (skip <= length s)%nat ->
  PyMore.replace_from old new skip (s ++ old)
  = PyMore.replace_from old new skip s ++ new.
Proof.
  intros Hne Hfree. revert skip. induction s as [|c s IH]; intros skip Hskip.
  - simpl in Hskip. replace skip with 0%nat by lia.
    cbn [app PyMore.replace_from]. by apply replace_from_self.
  - destruct skip as [|k].
    + cbn [app PyMore.replace_from].
      destruct (decide (length old <= length (c :: s))%nat) as [Hin|Hout].
      * change (c :: s ++ old) with ((c :: s) ++ old).
        rewrite (startswith_app_within old (c :: s) old Hin).
        destruct (Py.startswith old (c :: s)).
        -- rewrite IH by (simpl in Hin; lia). by rewrite app_assoc.
        -- by rewrite IH by lia.
      * change (c :: s ++ old) with ((c :: s) ++ old).
        rewrite (Hfree (c :: s)) by (done || lia).
        destruct (Py.startswith old (c :: s)) eqn:Hs.
        -- apply startswith_length in Hs. lia.
        -- by rewrite IH by lia.
    + cbn [app PyMore.replace_from]. apply IH. simpl in Hskip. lia.
Qed.

(** A text without occurrence of [old] is left as it is. *)
Lemma replace_no_occurrence (old new s : str) :
  Py.find old s = None -> PyMore.replace old new s = s.
Proof.
  unfold PyMore.replace. induction s as [|c s IH]; [done|].
  cbn [Py.find PyMore.replace_from].
  destruct (Py.startswith old (c :: s)); [done|].
  destruct (Py.find old s); [done|]. intros _. by rewrite IH.
Qed.

Lemma xlsx_border_free : border_free XLSX_EXTENSION.
Proof.
  intros s1 Hne Hlen.
  destruct s1 as [|a [|b [|c [|d [|e s1]]]]]; [done| | | | |simpl in Hlen; lia];
    vm_compute; repeat match goal with
                       | |- context [match ?x with _ => _ end] => destruct x
                       end; reflexivity.
Qed.

(** X11. For every file name that ends in the spreadsheet extension, the
    name of the CSV file is the name with that final extension replaced
    by the CSV extension, and with every earlier occurrence of the
    spreadsheet extension in the name replaced as well; it equals the stem
    followed by the CSV extension when the stem holds no such occurrence. *)
Theorem csv_name_of_spreadsheet (stem : str) :
  PyMore.replace XLSX_EXTENSION CSV_EXTENSION (stem ++ XLSX_EXTENSION)
  = PyMore.replace XLSX_EXTENSION CSV_EXTENSION stem ++ CSV_EXTENSION
  /\ (Py.find XLSX_EXTENSION stem = None ->
      PyMore.replace XLSX_EXTENSION CSV_EXTENSION (stem ++ XLSX_EXTENSION)
      = stem ++ CSV_EXTENSION).
Proof.
  assert (PyMore.replace XLSX_EXTENSION CSV_EXTENSION (stem ++ XLSX_EXTENSION)
          = PyMore.replace XLSX_EXTENSION CSV_EXTENSION stem ++ CSV_EXTENSION)
    as Heq.
  { unfold PyMore.replace.
    apply replace_from_app_old; [done|apply xlsx_border_free|lia]. }
  split; [exact Heq|]. intros Hnone.
  by rewrite Heq, replace_no_occurrence.
Qed.

Lemma csv_name_of_spreadsheet_witness :
  PyMore.replace XLSX_EXTENSION CSV_EXTENSION (lit "report.xlsx")
  = lit "report.csv".
Proof.
  apply (csv_name_of_spreadsheet (lit "report")). reflexivity.
Defined.

Lemma endswith_app (suffix s : str) :
  PyMore.endswith suffix (s ++ suffix) = true.
Proof.
  unfold PyMore.endswith. rewrite reverse_app.
  apply startswith_app, startswith_refl.
Qed.

(** X12. For a directory path [dir] and a file name made of a stem and
    the spreadsheet extension, the stem holding no other occurrence of
    the extension and not starting with a slash: the file is taken for a
    spreadsheet, and its CSV file is placed in the subdirectory [csv] of
    [dir], under the stem followed by the CSV extension. *)
Theorem csv_file_path_of_spreadsheet (dir stem : str) :
  Py.find XLSX_EXTENSION stem = None ->
  Py.startswith (lit "/") stem = false ->
  PyMore.endswith XLSX_EXTENSION (stem ++ XLSX_EXTENSION) = true
  /\ csv_file_path dir (stem ++ XLSX_EXTENSION)
     = dir ++ lit "/csv/" ++ stem ++ CSV_EXTENSION.
Proof.
  intros Hnone Hslash. split; [apply endswith_app|].
  unfold csv_file_path.
  destruct (csv_name_of_spreadsheet stem) as [_ ->]; [|done].
  unfold PyMore.os_path_join.
  assert (Py.startswith (lit "/") (stem ++ CSV_EXTENSION) = false) as ->.
  { destruct stem as [|c stem]; [done|]. simpl in *.
    by destruct (47 =? c). }
  assert (bool_decide (dir ++ lit "/csv" = []) = false) as ->.
  { apply bool_decide_eq_false_2. by destruct dir. }
  assert (PyMore.endswith (lit "/") (dir ++ lit "/csv") = false) as ->.
  { unfold PyMore.endswith. by rewrite reverse_app. }
  simpl. by rewrite <- !app_assoc.
Qed.

Lemma csv_file_path_of_spreadsheet_witness :
  csv_file_path (lit "../file") (lit "report.xlsx")
  = lit "../file/csv/report.csv".
Proof.
  apply (csv_file_path_of_spreadsheet (lit "../file") (lit "report"));
    reflexivity.
Defined.




(** * More on the extractor *)

(** ** Lines and their join *)

Lemma no_linebreak_not_cr (c : N) : Py.is_linebreak c = false -> (c =? 0x0D) = false.
Proof.
  unfold Py.is_linebreak. destruct (c =? 0x0D); [|done].
  rewrite !orb_true_r. simpl. by rewrite ?orb_true_r.
Qed.

(** A stretch without line boundary goes to the current line. *)
Lemma splitlines_from_stretch (l cur rest : str) :
  no_linebreak l ->
  Py.splitlines_from cur (l ++ rest) = Py.splitlines_from (reverse l ++ cur) rest.
Proof.
  intros Hl. revert cur. induction Hl as [|c l Hc _ IH]; intros cur; [done|].
  cbn [app Py.splitlines_from].
  rewrite (no_linebreak_not_cr c Hc), Hc, IH, reverse_cons, <- app_assoc. done.
Qed.

(** Splitting the join of lines gives the lines back, when no line holds
    a line boundary and the last line is not empty. *)
Lemma splitlines_join (lines : list str) :
  Forall no_linebreak lines -> last lines <> Some [] ->
  Py.splitlines (Py.join NEWLINE lines) = lines.
Proof.
  unfold Py.splitlines. induction 1 as [|x lines Hx Hlines IH]; [done|].
  intros Hlast. destruct lines as [|y lines].
  - cbn [Py.join]. rewrite <- (app_nil_r x) at 1.
    rewrite splitlines_from_stretch, app_nil_r by done. cbn [Py.splitlines_from].
    destruct (reverse x) as [|c r] eqn:Hr.
    + apply (f_equal reverse) in Hr. rewrite reverse_involutive in Hr.
      by subst x.
    + by rewrite <- Hr, reverse_involutive.
  - cbn [Py.join]. rewrite splitlines_from_stretch, app_nil_r by done.
    unfold NEWLINE at 1. cbn [app Py.splitlines_from].
    change (10 =? 13) with false. change (Py.is_linebreak 10) with true.
    cbv iota. rewrite reverse_involutive. f_equal. apply IH.
    by rewrite last_cons_cons in Hlast.
Qed.

(** No line that [splitlines] gives holds a line boundary. *)
Lemma splitlines_from_no_linebreak (n : nat) (s cur : str) :
  (length s <= n)%nat -> no_linebreak cur ->
  Forall no_linebreak (Py.splitlines_from cur s).
Proof.
  assert (no_linebreak []) as Hnil by constructor.
  assert (forall cur, no_linebreak cur -> no_linebreak (reverse cur)) as Hrev
    by (intros; by apply Forall_reverse).
  revert s cur. induction n as [|n IH]; intros s cur Hlen Hcur.
  - destruct s; [|simpl in Hlen; lia]. simpl.
    destruct cur; [done|]. constructor; [by apply Hrev|done].
  - destruct s as [|c s].
    { simpl. destruct cur; [done|]. constructor; [by apply Hrev|done]. }
    simpl in Hlen. cbn [Py.splitlines_from].
    destruct (c =? 13).
    + destruct s as [|d s].
      * constructor; [by apply Hrev|]. apply IH; [simpl; lia|done].
      * simpl in Hlen.
        destruct (d =? 10); (constructor; [by apply Hrev|]);
          (apply IH; [simpl; lia|done]).
    + destruct (Py.is_linebreak c) eqn:Hc.
      * constructor; [by apply Hrev|]. apply IH; [lia|done].
      * apply IH; [lia|]. by constructor.
Qed.

Lemma splitlines_no_linebreak (s : str) : Forall no_linebreak (Py.splitlines s).
Proof.
  apply (splitlines_from_no_linebreak (length s)); [done|constructor].
Qed.

(** ** What the body is made of *)

Lemma piece_of_take (i : nat) (l : str) : piece_of (take i l) l.
Proof. exists [], (drop i l). simpl. by rewrite take_drop. Qed.

Lemma piece_of_drop (i : nat) (l : str) : piece_of (drop i l) l.
Proof. exists (take i l), []. by rewrite app_nil_r, take_drop. Qed.

Lemma piece_of_refl (l : str) : piece_of l l.
Proof. exists [], []. by rewrite app_nil_r. Qed.

Lemma piece_of_trans (k l m : str) : piece_of k l -> piece_of l m -> piece_of k m.
Proof.
  intros (a & b & ->) (a' & b' & ->). exists (a' ++ a), (b ++ b').
  by rewrite <- !app_assoc.
Qed.

(** The line as the scan cuts it at the comment markers is a piece of the
    line read. *)
Lemma cut_line_piece (flag : bool) (line : str) :
  let line2 := (exit_comment (enter_comment flag line).1
                  (enter_comment flag line).2).2 in
  piece_of line2 line /\ (no_linebreak line -> no_linebreak line2).
Proof.
  unfold enter_comment, exit_comment.
  destruct (Py.find OPEN_COMMENT line) as [i|]; cbn [fst snd].
  - destruct (Py.find CLOSE_COMMENT (take i line)) as [j|]; cbn [snd].
    + split.
      * eapply piece_of_trans; [apply piece_of_drop|apply piece_of_take].
      * intros H. by apply Forall_drop, Forall_take.
    + split; [apply piece_of_take|]. intros H. by apply Forall_take.
  - destruct (Py.find CLOSE_COMMENT line) as [j|]; cbn [snd].
    + split; [apply piece_of_drop|]. intros H. by apply Forall_drop.
    + split; [apply piece_of_refl|done].
Qed.

Lemma startswith_nonempty (p s : str) :
  p <> [] -> Py.startswith p s = true -> s <> [].
Proof. intros Hp Hs ->. by destruct p. Qed.

Lemma keep_line_kept (scanned bl : list str) (bc : Z) (line : str) :
  Forall (kept_from scanned) bl ->
  Py.find OPEN_COMMENT line = None -> no_linebreak line ->
  (exists l, l ∈ scanned /\ piece_of line l) ->
  Forall (kept_from scanned) (keep_line bl bc line).1.
Proof.
  intros Hbl Hopen Hnl Hpiece. unfold keep_line.
  destruct (Py.startswith LINE_COMMENT (Py.strip line)) eqn:Hc.
  - destruct (re_search_u4e00_u9fff _) eqn:Hcjk; [|done]. cbn [fst].
    apply Forall_app. split; [done|]. constructor; [|done].
    unfold kept_from, kept_well. split_and!; [|done| |done|done].
    + by apply (startswith_nonempty LINE_COMMENT).
    + intros _. exact Hcjk.
  - case_bool_decide as Hblank; [|done]. cbn [fst].
    apply Forall_app. split; [done|]. constructor; [|done].
    unfold kept_from, kept_well. split_and!; [done|done| |done|done].
    unfold is_line_comment. by rewrite Hc.
Qed.

Lemma process_line_kept (scanned : list str) (st : body_state) (line : str) :
  Forall (kept_from scanned) (body_lines st) ->
  line ∈ scanned -> no_linebreak line ->
  Forall (kept_from scanned) (body_lines (process_line st line).1).
Proof.
  intros Hbl Hin Hnl. rewrite process_line_unfold.
  destruct (started st || Py.contains [LBRACE] line); [|done]. cbn [fst body_lines].
  destruct (negb _); [|done].
  destruct (cut_line_piece (in_multiline_comment st) line) as [Hp Hn].
  apply keep_line_kept; [done|apply opener_gone|by apply Hn|by exists line].
Qed.

Lemma scan_lines_kept (scanned : list str) (st : body_state) (lines : list str) :
  Forall (kept_from scanned) (body_lines st) ->
  Forall (fun l => l ∈ scanned /\ no_linebreak l) lines ->
  Forall (kept_from scanned) (body_lines (scan_lines st lines)).
Proof.
  intros Hbl Hlines. revert st Hbl.
  induction Hlines as [|line lines [Hin Hnl] _ IH]; intros st Hbl; [done|].
  cbn [scan_lines].
  pose proof (process_line_kept scanned st line Hbl Hin Hnl) as Hstep.
  destruct (process_line st line) as [st' stop]. cbn [fst] in Hstep.
  destruct stop; [done|]. by apply IH.
Qed.

Lemma strip_nil : Py.strip [] = [].
Proof. done. Qed.

(** X14. The lines of the body that [_get_method_body] returns are the
    lines the scan has kept. Each of them is a contiguous piece of a
    source line at or after the start line, is not blank and holds no
    block-comment opener; and each that is a single-line comment holds a
    character from U+4E00 to U+9FFF in its text. *)
Theorem body_lines_are_kept_pieces (java_code : str) (node : method_node) :
  let scanned :=
    drop (start_line_of (position node)) (Py.splitlines java_code) in
  let kept := body_lines (scan_lines body_init scanned) in
  Py.splitlines (_get_method_body java_code node) = kept
  /\ Forall kept_well kept
  /\ Forall (fun k => exists l, l ∈ scanned /\ piece_of k l) kept.
Proof.
  intros scanned kept.
  assert (Forall (kept_from scanned) kept) as Hkept.
  { apply scan_lines_kept; [constructor|].
    apply Forall_forall. intros l Hl. split; [done|].
    assert (Forall no_linebreak scanned) as Hall
      by apply Forall_drop, splitlines_no_linebreak.
    rewrite Forall_forall in Hall. by apply Hall. }
  split_and!.
  - unfold _get_method_body. fold scanned kept. apply splitlines_join.
    + eapply Forall_impl; [exact Hkept|]. by intros k (_ & ? & _).
    + intros Hlast. apply last_Some in Hlast as [front Hfront].
      rewrite Hfront in Hkept.
      apply Forall_app in Hkept as [_ Hk]. apply Forall_cons in Hk as [Hk _].
      destruct Hk as ((Hblank & _) & _). by rewrite strip_nil in Hblank.
  - eapply Forall_impl; [exact Hkept|]. by intros k (? & _).
  - eapply Forall_impl; [exact Hkept|]. by intros k (_ & _ & ?).
Qed.

(** ** Where the body starts and ends *)

Lemma process_line_in_comment (st : body_state) (line : str) :
  started st = true -> in_multiline_comment st = true ->
  Py.find CLOSE_COMMENT line = None ->
  process_line st line = (st, (brace_count st =? 0)%Z).
Proof.
  intros Hs Hf Hc. rewrite process_line_unfold, Hs, Hf. cbn [orb].
  assert ((enter_comment true line).1 = true
          /\ Py.find CLOSE_COMMENT (enter_comment true line).2 = None)
    as [H1 H2].
  { unfold enter_comment.
    destruct (Py.find OPEN_COMMENT line) as [i|]; cbn [fst snd]; [|done].
    split; [done|].
    destruct (Py.find CLOSE_COMMENT (take i line)) as [j|] eqn:Hj; [|done].
    apply find_take_Some in Hj. congruence. }
  cbv zeta. rewrite H1. unfold exit_comment. rewrite H2. cbn [fst snd negb].
  destruct st as [bl bc s f]. simpl in *. by subst.
Qed.

(** X15. An unterminated block comment suppresses everything after it:
    when the scan is inside a block comment and none of the lines that
    follow holds a closer, the scan of these lines changes nothing,
    whatever they hold. *)
Theorem unterminated_comment_suppresses_rest (st : body_state) (lines : list str) :
  started st = true -> in_multiline_comment st = true ->
  Forall (fun line => Py.find CLOSE_COMMENT line = None) lines ->
  scan_lines st lines = st.
Proof.
  intros Hs Hf Hall. induction Hall as [|line lines Hline _ IH]; [done|].
  cbn [scan_lines]. rewrite process_line_in_comment by done.
  by destruct (brace_count st =? 0)%Z.
Qed.

Lemma unterminated_comment_suppresses_rest_witness :
  scan_lines Demo2.in_comment [lit "  return 1;"; lit "}"; lit "void g() {}"]
  = Demo2.in_comment.
Proof.
  apply (unterminated_comment_suppresses_rest Demo2.in_comment);
    [reflexivity|reflexivity|].
  repeat constructor.
Defined.

(** X16. The body starts at the first scanned line that holds an opening
    brace: the lines before it are skipped, they are never kept and never
    counted. *)
Theorem body_starts_at_first_brace (pre rest : list str) :
  Forall (fun line => Py.contains [LBRACE] line = false) pre ->
  scan_lines body_init (pre ++ rest) = scan_lines body_init rest
  /\ lines_read body_init (pre ++ rest)
     = (length pre + lines_read body_init rest)%nat.
Proof.
  induction 1 as [|line pre Hline _ [IH1 IH2]]; [done|].
  cbn [app scan_lines lines_read length]. unfold process_line.
  cbn [started body_init orb]. rewrite Hline. cbv zeta. cbn [orb].
  fold body_init. by rewrite IH1, IH2.
Qed.

Lemma body_starts_at_first_brace_witness :
  scan_lines body_init
    ([lit "@Override"; lit "public void f()"] ++ [lit "{"; lit "}"])
  = scan_lines body_init [lit "{"; lit "}"].
Proof.
  apply (body_starts_at_first_brace [lit "@Override"; lit "public void f()"]
           [lit "{"; lit "}"]).
  repeat constructor.
Defined.

(** X17. The scan is left at the line where the counter returns to zero
    and reads nothing after it: whatever follows that line, the result is
    the same. *)
Theorem lines_after_the_end_are_not_read (st : body_state) (read rest : list str) :
  halted st read = true ->
  scan_lines st (read ++ rest) = scan_lines st read
  /\ lines_read st (read ++ rest) = lines_read st read.
Proof.
  revert st. induction read as [|line read IH]; intros st; [done|].
  cbn [app halted scan_lines lines_read].
  destruct (process_line st line) as [st' stop]. destruct stop; [done|].
  intros Hh. destruct (IH st' Hh) as [-> ->]. done.
Qed.

Lemma lines_after_the_end_are_not_read_witness :
  scan_lines body_init ([lit "void f() {"; lit "}"] ++ [lit "void g() {"; lit "}"])
  = scan_lines body_init [lit "void f() {"; lit "}"].
Proof.
  apply (lines_after_the_end_are_not_read body_init
           [lit "void f() {"; lit "}"] [lit "void g() {"; lit "}"]).
  reflexivity.
Defined.

(** ** What the declaration scan matches *)

Lemma length_le_concat (lines : list str) (i : nat) (l : str) :
  lines !! i = Some l -> (length l <= length (concat lines))%nat.
Proof.
  intros Hl. rewrite <- (take_drop_middle lines i l Hl).
  rewrite concat_app, concat_cons, !length_app. lia.
Qed.

(** On a line that goes on, from the column of the cursor, with what is
    left of the rendering, the loop steps over one character for each
    character left and returns right after them. *)
Lemma while_loop_exact (lines : list str) (declaration_str l0 rest : str)
  (fuel : nat) (c : cursor) :
  lines !! end_line c = Some l0 ->
  drop (end_column c) l0 = drop (current_char_index c) declaration_str ++ rest ->
  (current_char_index c <= length declaration_str)%nat ->
  (length declaration_str - current_char_index c <= fuel)%nat ->
  while_loop fuel lines declaration_str c
  = Returned {| end_line := end_line c;
                end_column := end_column c
                              + (length declaration_str - current_char_index c);
                current_char_index := length declaration_str |}.
Proof.
  revert c. induction fuel as [|fuel IH]; intros [el ec idx] Hl0 Hdrop Hidx Hfuel;
    cbn [end_line end_column current_char_index] in *.
  - cbn [while_loop current_char_index].
    destruct (Nat.ltb_spec idx (length declaration_str)); [lia|].
    do 2 f_equal; lia.
  - cbn [while_loop current_char_index].
    destruct (Nat.ltb_spec idx (length declaration_str)) as [Hlt|Hge].
    2:{ do 2 f_equal; lia. }
    destruct (lookup_lt_is_Some_2 declaration_str idx Hlt) as [d Hd].
    rewrite (drop_S _ _ _ Hd) in Hdrop.
    assert (l0 !! ec = Some d) as Hch.
    { replace ec with (ec + 0)%nat by lia. rewrite <- lookup_drop.
      by rewrite Hdrop. }
    assert (ec < length l0)%nat as Hec by (by apply lookup_lt_Some in Hch).
    assert (el < length lines)%nat as Hel by (by apply lookup_lt_Some in Hl0).
    unfold loop_body. cbn [end_line end_column current_char_index].
    rewrite Hl0.
    destruct (Nat.leb_spec (length l0) ec); [lia|]. cbn [andb].
    destruct (Nat.leb_spec (length lines) el); [lia|].
    rewrite Hl0. destruct (Nat.ltb_spec ec (length l0)); [|lia].
    rewrite Hch, Hd, N.eqb_refl.
    rewrite IH; cbn [end_line end_column current_char_index];
      [do 2 f_equal; lia|done| |lia|lia].
    replace (S ec) with (ec + 1)%nat by lia.
    rewrite <- (drop_drop l0 1 ec), Hdrop. done.
Qed.

(** X18. When the start line goes on, from the start column, with the
    rendering of the node, stripped, the scan matches it character by
    character and ends right after it, on the same line, with all of the
    rendering consumed; the text returned is the start line from the start
    column to its end. *)
Theorem declaration_matched_on_start_line
  (java_code : str) (node : method_node) (l0 rest : str) :
  let lines := Py.splitlines java_code in
  let start_line := start_line_of (position node) in
  let start_column := start_column_of (position node) in
  let declaration_str := Py.strip (rendered node) in
  lines !! start_line = Some l0 ->
  drop start_column l0 = declaration_str ++ rest ->
  while_loop (enough_fuel lines) lines declaration_str
    {| end_line := start_line; end_column := start_column;
       current_char_index := 0 |}
  = Returned {| end_line := start_line;
                end_column := start_column + length declaration_str;
                current_char_index := length declaration_str |}
  /\ _get_method_declaration java_code node = Returned (drop start_column l0).
Proof.
  intros lines start_line start_column declaration_str Hl0 Hdrop.
  assert (while_loop (enough_fuel lines) lines declaration_str
            {| end_line := start_line; end_column := start_column;
               current_char_index := 0 |}
          = Returned {| end_line := start_line;
                        end_column := start_column + length declaration_str;
                        current_char_index := length declaration_str |}) as Hloop.
  { rewrite (while_loop_exact lines declaration_str l0 rest);
      cbn [end_line end_column current_char_index];
      [do 2 f_equal; lia|done|done|lia|].
    pose proof (length_le_concat lines start_line l0 Hl0) as Hlen.
    assert (length declaration_str <= length l0)%nat.
    { apply (f_equal length) in Hdrop.
      rewrite length_drop, length_app in Hdrop. lia. }
    unfold enough_fuel. lia. }
  split; [exact Hloop|].
  unfold _get_method_declaration.
  fold lines start_line start_column declaration_str.
  rewrite Hloop. cbn [end_line end_column].
  by rewrite (same_line_declaration_is_line_tail lines start_line start_column
                _ l0 Hl0).
Qed.

Lemma declaration_matched_on_start_line_witness :
  _get_method_declaration Sample.one_line_method
    (Sample.node_at 2 3 (lit "public void f()"))
  = Returned (drop 2 (lit "  public void f() { return; }")).
Proof.
  apply (declaration_matched_on_start_line Sample.one_line_method
           (Sample.node_at 2 3 (lit "public void f()"))
           (lit "  public void f() { return; }") (lit " { return; }"));
    reflexivity.
Defined.

Section Walked.
Variable lines : list str.
Variable declaration_str : str.
Variables sl sc : nat.

(** The iterations of the loop, with the character they compare. *)
Lemma loop_body_chars (c : cursor) (l0 : str) (d : N) :
  lines !! end_line c = Some l0 ->
  declaration_str !! current_char_index c = Some d ->
  ((length l0 <= end_column c)%nat /\ (length lines <= S (end_line c))%nat
   /\ loop_body lines declaration_str c
      = Returned ({| end_line := S (end_line c); end_column := 0;
                     current_char_index := current_char_index c |}, true))
  \/ ((length l0 <= end_column c)%nat
      /\ exists l, lines !! S (end_line c) = Some l
           /\ ((l = []
                /\ loop_body lines declaration_str c
                   = Returned ({| end_line := S (end_line c); end_column := 0;
                                  current_char_index := current_char_index c |},
                               false))
               \/ exists ch, l !! 0%nat = Some ch
                    /\ loop_body lines declaration_str c
                       = Returned
                           ({| end_line := S (end_line c); end_column := 1;
                               current_char_index :=
                                 if ch =? d then S (current_char_index c)
                                 else current_char_index c |}, false)))
  \/ ((end_column c < length l0)%nat
      /\ exists ch, l0 !! end_column c = Some ch
           /\ loop_body lines declaration_str c
              = Returned
                  ({| end_line := end_line c; end_column := S (end_column c);
                      current_char_index :=
                        if ch =? d then S (current_char_index c)
                        else current_char_index c |}, false)).
Proof.
  intros Hl0 Hd. unfold loop_body. rewrite Hl0, Hd.
  destruct (Nat.leb_spec (length l0) (end_column c)) as [Hwrap|Hstay]; simpl.
  - destruct (Nat.leb_spec (length lines) (S (end_line c))) as [Hend|Hin].
    + left. done.
    + right. left. split; [done|].
      destruct (lines !! S (end_line c)) as [l|] eqn:Hl.
      2:{ apply lookup_ge_None_1 in Hl. lia. }
      exists l. split; [done|]. destruct l as [|ch l]; simpl.
      * by left.
      * right. exists ch. split; [done|]. by destruct (ch =? d).
  - right. right. split; [done|].
    assert (end_line c < length lines)%nat as Hin
      by (apply lookup_lt_is_Some_1; by eexists).
    destruct (Nat.leb_spec (length lines) (end_line c)); [lia|].
    rewrite Hl0. destruct (Nat.ltb_spec (end_column c) (length l0)); [|lia].
    destruct (l0 !! end_column c) as [ch|] eqn:Hch.
    2:{ apply lookup_ge_None_1 in Hch. lia. }
    exists ch. split; [done|]. by destruct (ch =? d).
Qed.

(** Past the end of a line the cursor wraps without walking over
    anything. *)
Lemma walked_wrap (el ec : nat) (l : str) :
  lines !! el = Some l -> (length l <= ec)%nat -> (sl <= el)%nat ->
  walked lines sl sc (S el) 0 = walked lines sl sc el ec.
Proof.
  intros Hl Hec Hle. unfold walked.
  destruct (Nat.eqb_spec (S el) sl); [lia|].
  destruct (Nat.eqb_spec el sl) as [->|Hne].
  - rewrite Hl. cbn [default from_option id].
    replace (S sl - sl - 1)%nat with 0%nat by lia.
    rewrite !take_0. cbn [concat]. rewrite !app_nil_r.
    rewrite take_ge; [done|]. rewrite length_drop. lia.
  - f_equal. rewrite Hl. cbn [default from_option id]. rewrite take_0, app_nil_r.
    replace (S el - sl - 1)%nat with (S (el - sl - 1)) by lia.
    rewrite (take_S_r _ _ l).
    + rewrite concat_app. cbn [concat]. rewrite app_nil_r.
      by rewrite (take_ge l ec).
    + rewrite lookup_drop. replace (S sl + (el - sl - 1))%nat with el by lia.
      done.
Qed.

(** A step within a line walks over the character under the cursor. *)
Lemma walked_step (el ec : nat) (l : str) (ch : N) :
  lines !! el = Some l -> l !! ec = Some ch ->
  (el = sl -> (sc <= ec)%nat) ->
  walked lines sl sc el (S ec) = walked lines sl sc el ec ++ [ch].
Proof.
  intros Hl Hch Hcol. unfold walked.
  destruct (Nat.eqb_spec el sl) as [->|Hne].
  - rewrite Hl. cbn [default from_option id]. specialize (Hcol eq_refl).
    replace (S ec - sc)%nat with (S (ec - sc)) by lia.
    apply take_S_r. rewrite lookup_drop.
    replace (sc + (ec - sc))%nat with ec by lia. done.
  - rewrite Hl. cbn [default from_option id]. rewrite (take_S_r _ _ ch Hch).
    by rewrite !app_assoc.
Qed.

Lemma sublist_step (w : str) (idx : nat) (d ch : N) :
  declaration_str !! idx = Some d ->
  take idx declaration_str `sublist_of` w ->
  take (if ch =? d then S idx else idx) declaration_str `sublist_of` w ++ [ch].
Proof.
  intros Hd Hsub. destruct (N.eqb_spec ch d) as [->|_].
  - rewrite (take_S_r _ _ d Hd). by apply sublist_app.
  - by apply sublist_inserts_r.
Qed.

(** What every iteration keeps: the cursor is at or after the start, and
    the characters of the rendering consumed so far are, in their order,
    among the characters walked over. *)
Lemma loop_body_walked (c c' : cursor) (b : bool) :
  (current_char_index c < length declaration_str)%nat ->
  loop_body lines declaration_str c = Returned (c', b) ->
  (sl <= end_line c)%nat /\ (end_line c = sl -> (sc <= end_column c)%nat)
  /\ take (current_char_index c) declaration_str
       `sublist_of` walked lines sl sc (end_line c) (end_column c) ->
  ((sl <= end_line c')%nat /\ (end_line c' = sl -> (sc <= end_column c')%nat)
   /\ take (current_char_index c') declaration_str
        `sublist_of` walked lines sl sc (end_line c') (end_column c'))
  /\ (b = true -> (length lines <= end_line c')%nat).
Proof.
  intros Hidx Hret (Hle & Hcol & Hsub).
  destruct (lines !! end_line c) as [l0|] eqn:Hl0.
  2:{ unfold loop_body in Hret. by rewrite Hl0 in Hret. }
  destruct (lookup_lt_is_Some_2 declaration_str _ Hidx) as [d Hd].
  destruct (loop_body_chars c l0 d Hl0 Hd)
    as [(Hw & Hend & Heq)
       |[(Hw & l & Hl & [[-> Heq]|(ch & Hch & Heq)])
        |(Hs & ch & Hch & Heq)]];
    rewrite Heq in Hret; injection Hret as <- <-;
    cbn [end_line end_column current_char_index].
  - split; [|done]. split_and!; [lia|lia|].
    by rewrite (walked_wrap _ (end_column c) l0).
  - split; [|done]. split_and!; [lia|lia|].
    by rewrite (walked_wrap _ (end_column c) l0).
  - split; [|done]. split_and!; [lia|lia|].
    rewrite (walked_step (S (end_line c)) 0 l ch Hl Hch) by lia.
    rewrite (walked_wrap _ (end_column c) l0) by done.
    by apply sublist_step.
  - split; [|done]. split_and!; [lia|intros; specialize (Hcol ltac:(done)); lia|].
    rewrite (walked_step (end_line c) (end_column c) l0 ch Hl0 Hch Hcol).
    by apply sublist_step.
Qed.

(** The loop returns with the rendering consumed or the cursor past the
    last line, and keeps what its iterations keep. *)
Lemma while_loop_walked (fuel : nat) (c c' : cursor) :
  while_loop fuel lines declaration_str c = Returned c' ->
  (current_char_index c <= length declaration_str)%nat ->
  (sl <= end_line c)%nat /\ (end_line c = sl -> (sc <= end_column c)%nat)
  /\ take (current_char_index c) declaration_str
       `sublist_of` walked lines sl sc (end_line c) (end_column c) ->
  (current_char_index c' = length declaration_str
   \/ (length lines <= end_line c')%nat)
  /\ take (current_char_index c') declaration_str
       `sublist_of` walked lines sl sc (end_line c') (end_column c').
Proof.
  revert c. induction fuel as [|fuel IH]; intros c; cbn [while_loop].
  - destruct (Nat.ltb_spec (current_char_index c) (length declaration_str));
      [done|]. intros [= <-] Hidx (_ & _ & Hsub). split; [left; lia|done].
  - destruct (Nat.ltb_spec (current_char_index c) (length declaration_str))
      as [Hlt|Hge].
    2:{ intros [= <-] Hidx (_ & _ & Hsub). split; [left; lia|done]. }
    destruct (loop_body lines declaration_str c) as [[c1 b]| |] eqn:Heq;
      [|done|done].
    intros Hret Hidx Hinv.
    destruct (loop_body_walked c c1 b Hlt Heq Hinv) as [Hinv1 Hbreak].
    destruct b.
    + injection Hret as <-. split; [right; by apply Hbreak|apply Hinv1].
    + apply (IH c1 Hret); [|done].
      destruct (lines !! end_line c) as [l0|] eqn:Hl0.
      2:{ unfold loop_body in Heq. by rewrite Hl0 in Heq. }
      destruct (lookup_lt_is_Some_2 declaration_str _ Hlt) as [d Hd].
      destruct (loop_body_chars c l0 d Hl0 Hd)
        as [(_ & _ & Heq')
           |[(_ & l & _ & [[_ Heq']|(ch & _ & Heq')])|(_ & ch & _ & Heq')]];
        rewrite Heq' in Heq; injection Heq as <-;
        cbn [current_char_index]; try lia;
        destruct (ch =? d); lia.
Qed.

End Walked.

(** X19. Started on a line of the text, the declaration scan stops with
    the rendering consumed to its end or with the source exhausted; the
    characters of the rendering it has consumed are, in their order,
    among the characters of the source it has walked over from the start
    position to the end cursor. *)
Theorem declaration_scan_matches_a_subsequence
  (java_code : str) (node : method_node) :
  let lines := Py.splitlines java_code in
  let start_line := start_line_of (position node) in
  let start_column := start_column_of (position node) in
  let declaration_str := Py.strip (rendered node) in
  (start_line < length lines)%nat ->
  exists c,
    while_loop (enough_fuel lines) lines declaration_str
      {| end_line := start_line; end_column := start_column;
         current_char_index := 0 |} = Returned c
    /\ (current_char_index c = length declaration_str
        \/ end_line c = length lines)
    /\ take (current_char_index c) declaration_str
         `sublist_of` walked lines start_line start_column
                        (end_line c) (end_column c).
Proof.
  intros lines start_line start_column declaration_str Hin.
  destruct (while_loop_end lines declaration_str start_line start_column Hin)
    as (c & Hc & _ & Hlen & _).
  exists c. split; [done|].
  destruct (while_loop_walked lines declaration_str start_line start_column
              _ _ c Hc) as [Hstop Hsub].
  - cbn [current_char_index]. lia.
  - cbn [end_line end_column current_char_index]. split_and!; [lia|lia|].
    rewrite take_0. apply sublist_nil_l.
  - split; [|done]. destruct Hstop as [?|?]; [by left|right; lia].
Qed.

Lemma declaration_scan_matches_a_subsequence_witness :
  exists c,
    while_loop (enough_fuel (Py.splitlines Sample.two_line_declaration))
      (Py.splitlines Sample.two_line_declaration)
      (lit "public void f(int a, int b)")
      {| end_line := 1; end_column := 2; current_char_index := 0 |}
    = Returned c
    /\ take (current_char_index c) (lit "public void f(int a, int b)")
         `sublist_of` walked (Py.splitlines Sample.two_line_declaration) 1 2
                        (end_line c) (end_column c).
Proof.
  destruct (declaration_scan_matches_a_subsequence Sample.two_line_declaration
              (Sample.node_at 2 3 (lit "public void f(int a, int b)")))
    as (c & Hc & _ & Hsub).
  - vm_compute. lia.
  - exists c. split; [exact Hc|exact Hsub].
Defined.
